(** * InkSpire: the quote widget of [script.js]

    A shallow embedding of the two revisions of the widget script that the
    repository holds ([src/script.js] and the later revision with the Web
    Share API), and the properties of quote acquisition ([getQuotes]),
    selection ([newQuote]), rendering ([setQuote]) and sharing
    ([shareQuote]).

    The script is stateful: it owns the global [data] array, writes to the
    DOM elements collected in [elements], logs through [console.error] and
    opens windows.  All of that is one [State] record that the functions
    thread through a state-and-exception monad [M]; a JavaScript [throw] is
    the [Throw] result, [try { } catch { }] is [try_catch]. *)

From Stdlib Require Import ZArith Lia.
From stdpp Require Import base option list strings gmap.

Local Open Scope Z_scope.

(** ** Numbers

    [Math.random()] returns a binary64 number in the interval [0, 1).  Only
    non-negative finite numbers occur in the script, so a number is a
    mantissa and an exponent, standing for [mant * 2 ^ expo]. *)

Record double : Type := Double { mant : Z; expo : Z }.

(** The numbers [Math.random()] can return: 53 bits of mantissa, an exponent
    no smaller than the one of the subnormals, and a value below one. *)
Definition unit_interval (r : double) : Prop :=
  0 <= mant r < 2 ^ 53 /\ -1074 <= expo r < 0 /\ mant r < 2 ^ (- expo r).

Definition unit_intervalb (r : double) : bool :=
  (0 <=? mant r) && (mant r <? 2 ^ 53) && (-1074 <=? expo r) && (expo r <? 0)
  && (mant r <? 2 ^ (- expo r)).

(** Rounding of the exact value [m * 2 ^ e] to 53 bits of mantissa, to the
    nearest number and to the even mantissa on a tie: the rounding of the
    binary64 product. *)
Definition round53 (m e : Z) : double :=
  let s := Z.log2 m + 1 - 53 in
  if s <=? 0 then Double m e
  else
    let q := Z.shiftr m s in
    let rest := Z.land m (Z.ones s) in
    let half := 2 ^ (s - 1) in
    let up := (half <? rest) || ((rest =? half) && Z.odd q) in
    Double (if up then q + 1 else q) (e + s).

(** [r * n] for the length [n] of an array, which is an integer that the
    number type holds exactly: the exact product [mant r * n * 2 ^ expo r],
    rounded.  Its exponent is the one of [r] or larger, so the result never
    falls below the subnormal range. *)
Definition mul_length (r : double) (n : Z) : double :=
  round53 (mant r * n) (expo r).

(** [Math.floor]. *)
Definition Math_floor (x : double) : Z := Z.shiftl (mant x) (expo x).

(** ** Values of the quote records

    The elements of [data] are quote records; reading [data] out of range
    gives [undefined], which is [None] below.  A field of a quote record is
    absent ([undefined] when read), [null], or a string.  A string is its
    sequence of UTF-16 code units, one character of the Rocq string per code
    unit, so that [String.length] is the [length] property.  Fields that
    hold a number, a boolean, an object or an array are not modelled; for
    those [quoteText.length] does not throw, so nothing below that speaks of
    a text that is missing or [null] extends to them. *)

Inductive jsfield : Type :=
| Absent
| Null
| Str (s : string).

Module Quote.
Record t : Type := Make { author : jsfield; text : jsfield }.
End Quote.

(** [ToString], as the template literal applies it. *)
Definition ToString (v : jsfield) : string :=
  match v with
  | Absent => "undefined"
  | Null => "null"
  | Str s => s
  end.

(** The conversion of the [textContent] setter, whose argument is a nullable
    string: [undefined] and [null] empty the element. *)
Definition toTextContent (v : jsfield) : string :=
  match v with
  | Absent | Null => ""
  | Str s => s
  end.

(** A destructuring default [= d]: it replaces [undefined] only. *)
Definition withDefault (v : jsfield) (d : string) : jsfield :=
  match v with
  | Absent => Str d
  | _ => v
  end.

(** ** Errors and the console *)

Record JsError : Type := Error { name : string; message : string }.

Definition TypeError (msg : string) : JsError := Error "TypeError" msg.

(** [String(error)], as [+] applies it to an error: the name and the
    message with a colon between them, or the one of the two that is not
    empty. *)
Definition errorToString (e : JsError) : string :=
  match name e, message e with
  | EmptyString, msg => msg
  | nm, EmptyString => nm
  | nm, msg => nm +:+ ": " +:+ msg
  end.

(** One argument of a [console.error] call. *)
Inductive LogArg : Type :=
| LogStr (s : string)
| LogErr (e : JsError).

(** ** The DOM *)

Record Element : Type := mkElement {
  textContent : string;
  classList : gset string;
  hidden : bool
}.

(** The [elements] object.  The two buttons only carry listeners and are
    left out. *)
Record Elements : Type := mkElements {
  mainContainer : Element;
  quote : Element;
  author : Element;
  loader : Element
}.

(** What [navigator.share] is given. *)
Record ShareData : Type := mkShareData {
  share_title : string;
  share_text : string;
  share_url : string
}.

(** ** The state of the page *)

Record State : Type := mkState {
  data : list Quote.t;                  (* [let data = []] *)
  elements : Elements;
  console : list (list LogArg);         (* the [console.error] calls, oldest first *)
  opened : list (string * string);      (* the [window.open] calls *)
  shared : list ShareData;              (* the [navigator.share] calls *)
  random : nat -> double;               (* what the successive [Math.random()] return *)
  drawn : nat;                          (* how many were drawn *)
  rendered : list (option Quote.t)      (* ghost: the argument of each [setQuote] call *)
}.

Definition set_data (d : list Quote.t) (st : State) : State :=
  mkState d (elements st) (console st) (opened st) (shared st)
          (random st) (drawn st) (rendered st).

Definition set_elements (els : Elements) (st : State) : State :=
  mkState (data st) els (console st) (opened st) (shared st)
          (random st) (drawn st) (rendered st).

Definition set_console (c : list (list LogArg)) (st : State) : State :=
  mkState (data st) (elements st) c (opened st) (shared st)
          (random st) (drawn st) (rendered st).

Definition set_opened (o : list (string * string)) (st : State) : State :=
  mkState (data st) (elements st) (console st) o (shared st)
          (random st) (drawn st) (rendered st).

Definition set_shared (s : list ShareData) (st : State) : State :=
  mkState (data st) (elements st) (console st) (opened st) s
          (random st) (drawn st) (rendered st).

Definition set_drawn (n : nat) (st : State) : State :=
  mkState (data st) (elements st) (console st) (opened st) (shared st)
          (random st) n (rendered st).

Definition set_rendered (r : list (option Quote.t)) (st : State) : State :=
  mkState (data st) (elements st) (console st) (opened st) (shared st)
          (random st) (drawn st) r.

(** ** The monad of the script *)

Inductive Result (A : Type) : Type :=
| Ok (a : A)
| Throw (e : JsError).
Arguments Ok {A} a.
Arguments Throw {A} e.

Definition M (A : Type) : Type := State -> Result A * State.

Definition ret {A} (a : A) : M A := fun st => (Ok a, st).

Definition bind {A B} (m : M A) (k : A -> M B) : M B :=
  fun st =>
    match m st with
    | (Ok a, st') => k a st'
    | (Throw e, st') => (Throw e, st')
    end.

Definition throw {A} (e : JsError) : M A := fun st => (Throw e, st).

Definition try_catch {A} (body : M A) (handler : JsError -> M A) : M A :=
  fun st =>
    match body st with
    | (Ok a, st') => (Ok a, st')
    | (Throw e, st') => handler e st'
    end.

Definition gets {A} (f : State -> A) : M A := fun st => (Ok (f st), st).

Definition modify (f : State -> State) : M unit := fun st => (Ok tt, f st).

Definition when (b : bool) (m : M unit) : M unit := if b then m else ret tt.

Declare Scope js_scope.
Delimit Scope js_scope with js.
Notation "'let*' x ':=' m 'in' k" := (bind m (fun x => k))
  (at level 10, x name, m at level 100, k at level 200) : js_scope.
Notation "m ';;;' k" := (bind m (fun _ => k))
  (at level 100, k at level 200, right associativity) : js_scope.
Local Open Scope js_scope.

(** ** The functions that both revisions share *)

(** [const logError = (message) => console.error(message)] *)
Definition logError (message : string) : M unit :=
  modify (fun st => set_console (console st ++ [[LogStr message]]) st).

(** [console.error(message, error)] *)
Definition console_error2 (message : string) (error : JsError) : M unit :=
  modify (fun st => set_console (console st ++ [[LogStr message; LogErr error]]) st).

Definition set_hidden (b : bool) (el : Element) : Element :=
  mkElement (textContent el) (classList el) b.

Definition set_textContent (s : string) (el : Element) : Element :=
  mkElement s (classList el) (hidden el).

(** [classList.toggle(token, force)]: with [force] the token is added when
    [force] is true and removed when it is false. *)
Definition classList_toggle (token : string) (force : bool) (el : Element) : Element :=
  mkElement (textContent el)
            (if force then {[token]} ∪ classList el else classList el ∖ {[token]})
            (hidden el).

Definition on_loader (f : Element -> Element) (els : Elements) : Elements :=
  mkElements (mainContainer els) (quote els) (author els) (f (loader els)).

Definition on_mainContainer (f : Element -> Element) (els : Elements) : Elements :=
  mkElements (f (mainContainer els)) (quote els) (author els) (loader els).

Definition on_quote (f : Element -> Element) (els : Elements) : Elements :=
  mkElements (mainContainer els) (f (quote els)) (author els) (loader els).

Definition on_author (f : Element -> Element) (els : Elements) : Elements :=
  mkElements (mainContainer els) (quote els) (f (author els)) (loader els).

Definition update_elements (f : Elements -> Elements) : M unit :=
  modify (fun st => set_elements (f (elements st)) st).

(** [[
const loading = () => {
    elements.loader.hidden = false;
    elements.mainContainer.hidden = true;
}
]] *)
Definition loading : M unit :=
  update_elements (on_loader (set_hidden false));;;
  update_elements (on_mainContainer (set_hidden true)).

(** [[
const completeLoading = () => {
    elements.mainContainer.hidden = false;
    elements.loader.hidden = true;
}
]] *)
Definition completeLoading : M unit :=
  update_elements (on_mainContainer (set_hidden false));;;
  update_elements (on_loader (set_hidden true)).

(** [quoteText.length]: reading a property of [undefined] or [null] throws. *)
Definition length_of (v : jsfield) : M Z :=
  match v with
  | Str s => ret (Z.of_nat (String.length s))
  | Absent => throw (TypeError "Cannot read properties of undefined (reading 'length')")
  | Null => throw (TypeError "Cannot read properties of null (reading 'length')")
  end.

(** [[
const setQuote = ({ author: authorText = "Unknown", text: quoteText }) => {
    const { quote, author } = elements;
    quote.textContent = quoteText;
    author.textContent = ` - ${authorText}`;
    quote.classList.toggle("long-quote", quoteText.length > 120);
}
]]
    The argument is [None] when the caller passes [undefined]; destructuring
    it throws before the body runs. *)
Definition setQuote (arg : option Quote.t) : M unit :=
  modify (fun st => set_rendered (rendered st ++ [arg]) st);;;
  match arg with
  | None => throw (TypeError "Cannot destructure property 'author' of 'undefined' as it is undefined.")
  | Some q =>
      let authorText := withDefault (Quote.author q) "Unknown" in
      let quoteText := Quote.text q in
      update_elements (on_quote (set_textContent (toTextContent quoteText)));;;
      update_elements (on_author (set_textContent (" - " +:+ ToString authorText)));;;
      let* len := length_of quoteText in
      update_elements (on_quote (classList_toggle "long-quote" (120 <? len)))
  end.

(** [Math.random()] *)
Definition Math_random : M double :=
  fun st => (Ok (random st (drawn st)), set_drawn (S (drawn st)) st).

(** [data[i]] for an integer-valued number [i]: [undefined] out of range. *)
Definition at_index (d : list Quote.t) (i : Z) : option Quote.t :=
  if i <? 0 then None else d !! Z.to_nat i.

(** [data[Math.floor(Math.random() * data.length)]] *)
Definition randomIndex (r : double) (len : nat) : Z :=
  Math_floor (mul_length r (Z.of_nat len)).

Definition pickRandom : M (option Quote.t) :=
  let* d := gets data in
  let* r := Math_random in
  let* len := gets (fun st => length (data st)) in
  ret (at_index d (randomIndex r len)).

(** ** The remote call

    What [await fetch(apiURL)] followed by [await response.json()] can
    produce: the fetch rejects (network error), the body does not parse
    (the [json()] promise rejects), or the body parses.  A parsed body is an
    array of quote records, or a value that the spread [...apiQuotes] cannot
    iterate (an object, a number, a boolean, [null]). *)

Inductive Body : Type :=
| BodyArray (apiQuotes : list Quote.t)
| BodyNotIterable.

Inductive Remote : Type :=
| FetchRejects (error : JsError)
| JsonRejects (error : JsError)
| JsonResolves (body : Body).

(** [const response = await fetch(apiURL); const apiQuotes = await response.json();] *)
Definition fetch_json (remote : Remote) : M Body :=
  match remote with
  | FetchRejects error => throw error
  | JsonRejects error => throw error
  | JsonResolves body => ret body
  end.

(** [...apiQuotes] *)
Definition spread (apiQuotes : Body) : M (list Quote.t) :=
  match apiQuotes with
  | BodyArray l => ret l
  | BodyNotIterable => throw (TypeError "apiQuotes is not iterable")
  end.

(** The remote call fails for the code, that is, the [try] block throws
    before [newQuote] is called: one of the two awaits rejects or the parsed
    body cannot be spread.  A parsed array is never a failure in this sense,
    whatever its records hold; [spec_remote_fails] below is the notion of
    the specification. *)
Definition remote_fails (remote : Remote) : bool :=
  match remote with
  | JsonResolves (BodyArray _) => false
  | _ => true
  end.

(** [window.open(url, target)] *)
Definition window_open (url target : string) : M unit :=
  modify (fun st => set_opened (opened st ++ [(url, target)]) st).

(** The double quote character of the share text. *)
Definition dquote : string :=
  String (Ascii.Ascii false true false false false true false false) EmptyString.

(** [!s] for a string: only the empty string is falsy. *)
Definition falsy (s : string) : bool :=
  match s with
  | EmptyString => true
  | String _ _ => false
  end.

(** ** [src/script.js] *)

Module ScriptJs.
Section Script.

(** [localQuotes] is the global of [quotes.js]; [encodeURIComponent] is
    the built-in. *)
Variable localQuotes : list Quote.t.
Variable encodeURIComponent : string -> string.

(** [[
const shareQuote = () => {
    (!elements.quote.textContent || !elements.author.textContent) && logError("No quote or author to share");

    const twitterUrl = `https://twitter.com/intent/tweet?text=${encodeURIComponent(`"${elements.quote.textContent}" - ${elements.author.textContent}`)}`;
    window.open(twitterUrl, '_blank');
}
]] *)
Definition shareQuote : M unit :=
  let* quoteText := gets (fun st => textContent (quote (elements st))) in
  let* authorText := gets (fun st => textContent (author (elements st))) in
  when (falsy quoteText || falsy authorText) (logError "No quote or author to share");;;
  let twitterUrl :=
    "https://twitter.com/intent/tweet?text="
    +:+ encodeURIComponent (dquote +:+ quoteText +:+ dquote +:+ " - " +:+ authorText) in
  window_open twitterUrl "_blank".

(** [[
const newQuote = () => {
    loading();
    (!data.length) && logError("No quotes to display");
    setQuote(data[Math.floor(Math.random() * data.length)]);
    completeLoading();
}
]] *)
Definition newQuote : M unit :=
  loading;;;
  let* len := gets (fun st => length (data st)) in
  when (Nat.eqb len 0) (logError "No quotes to display");;;
  let* picked := pickRandom in
  setQuote picked;;;
  completeLoading.

(** [[
async function getQuotes() {
    loading();
    try {
        const response = await fetch(apiURL);
        const apiQuotes = await response.json();
        data = [...localQuotes, ...apiQuotes];
        newQuote();
    } catch (error) {
        console.error("Error fetching quotes", error);
        data = [...localQuotes];
        newQuote();
    }
}
]] *)
Definition getQuotes (remote : Remote) : M unit :=
  loading;;;
  try_catch
    (let* apiQuotes := fetch_json remote in
     let* remoteQuotes := spread apiQuotes in
     modify (set_data (localQuotes ++ remoteQuotes));;;
     newQuote)
    (fun error =>
       console_error2 "Error fetching quotes" error;;;
       modify (set_data localQuotes);;;
       newQuote).

(** [[
getQuotes().catch(error => {
    console.error("Unhandled error in getQuotes:", error);
});
]] *)
Definition main (remote : Remote) : M unit :=
  try_catch (getQuotes remote)
            (fun error => console_error2 "Unhandled error in getQuotes:" error).

End Script.
End ScriptJs.

(** ** The revision with the Web Share API ([src/unnamed/part_001]) *)

Module Part001.
Section Script.

Variable localQuotes : list Quote.t.
Variable encodeURIComponent : string -> string.
(** [navigator.share]: [None] where the browser has none; otherwise what
    the promise it returns does, [None] for fulfilled and [Some error] for
    rejected.  The rejection handler runs when the promise settles; here it
    runs at once. *)
Variable navigator_share : option (ShareData -> option JsError).
(** [window.location.href] *)
Variable location_href : string.

(** [[
const shareQuote = () => {
    const quote = elements.quote.textContent;
    const author = elements.author.textContent;
    if (!quote || !author) {
        logError("No quote or author to share");
        return;
    }
    const shareText = `${quote} ${author}`;
    if (navigator.share) {
        navigator.share({
            title: 'InkSpire Quote',
            text: shareText,
            url: window.location.href,
        }).catch((error) => {
            logError("Error sharing via Web Share API: " + error);
        });
    } else {
        const twitterUrl = `https://twitter.com/intent/tweet?text=${encodeURIComponent(shareText)}`;
        window.open(twitterUrl, '_blank');
    }
}
]] *)
Definition shareQuote : M unit :=
  let* quoteText := gets (fun st => textContent (quote (elements st))) in
  let* authorText := gets (fun st => textContent (author (elements st))) in
  if falsy quoteText || falsy authorText then
    logError "No quote or author to share"
  else
    let shareText := quoteText +:+ " " +:+ authorText in
    match navigator_share with
    | Some share =>
        let shareData := mkShareData "InkSpire Quote" shareText location_href in
        modify (fun st => set_shared (shared st ++ [shareData]) st);;;
        match share shareData with
        | Some error => logError ("Error sharing via Web Share API: " +:+ errorToString error)
        | None => ret tt
        end
    | None =>
        let twitterUrl :=
          "https://twitter.com/intent/tweet?text=" +:+ encodeURIComponent shareText in
        window_open twitterUrl "_blank"
    end.

(** [[
const newQuote = () => {
    loading();
    if (!data.length) {
        logError("No quotes to display");
        completeLoading();
        return;
    }
    setQuote(data[Math.floor(Math.random() * data.length)]);
    completeLoading();
}
]] *)
Definition newQuote : M unit :=
  loading;;;
  let* len := gets (fun st => length (data st)) in
  if Nat.eqb len 0 then
    logError "No quotes to display";;;
    completeLoading
  else
    let* picked := pickRandom in
    setQuote picked;;;
    completeLoading.

(** [[
async function getQuotes() {
    loading();
    try {
        const response = await fetch(apiURL);
        const apiQuotes = await response.json();
        data = [...localQuotes, ...apiQuotes];
        newQuote();
    } catch (error) {
        logError("Error fetching quotes: " + error);
        data = [...localQuotes];
        newQuote();
    }
}
]] *)
Definition getQuotes (remote : Remote) : M unit :=
  loading;;;
  try_catch
    (let* apiQuotes := fetch_json remote in
     let* remoteQuotes := spread apiQuotes in
     modify (set_data (localQuotes ++ remoteQuotes));;;
     newQuote)
    (fun error =>
       logError ("Error fetching quotes: " +:+ errorToString error);;;
       modify (set_data localQuotes);;;
       newQuote).

(** [[
getQuotes().catch(error => {
    logError("Unhandled error in getQuotes: " + error);
});
]] *)
Definition main (remote : Remote) : M unit :=
  try_catch (getQuotes remote)
            (fun error => logError ("Unhandled error in getQuotes: " +:+ errorToString error)).

End Script.
End Part001.

(** ** Sample inputs *)

(** An element with no text and no class. *)
Definition blank : Element := mkElement "" ∅ false.

(** The page before the script has written anything, with the numbers that
    [Math.random()] is going to return. *)
Definition initial (rnd : nat -> double) : State :=
  mkState [] (mkElements blank blank blank blank) [] [] [] rnd 0 [].

(** The number 1/2. *)
Definition one_half : double := Double 1 (-1).

(** A text of [n] code units. *)
Fixpoint text_of_length (n : nat) : string :=
  match n with
  | O => EmptyString
  | S k => String (Ascii.ascii_of_nat 97) (text_of_length k)
  end.

(** The record has a string as its text. *)
Definition has_text (q : Quote.t) : bool :=
  match Quote.text q with
  | Str _ => true
  | _ => false
  end.

(** The error of a failed remote call, as the [catch] clause receives it. *)
Definition remote_error (remote : Remote) : option JsError :=
  match remote with
  | FetchRejects error => Some error
  | JsonRejects error => Some error
  | JsonResolves BodyNotIterable => Some (TypeError "apiQuotes is not iterable")
  | JsonResolves (BodyArray _) => None
  end.

(** Modelled from the spec's words (section 6, "expected response body: a
    JSON array of objects each with optional author and required text-like
    field"): the parsed body has the expected shape. *)
Definition expected_shape (body : Body) : bool :=
  match body with
  | BodyArray R => forallb has_text R
  | BodyNotIterable => false
  end.

(** The remote call fails as the specification counts failures (section
    4.1, "network error, non-JSON body, malformed shape"). *)
Definition spec_remote_fails (remote : Remote) : bool :=
  match remote with
  | FetchRejects _ => true
  | JsonRejects _ => true
  | JsonResolves body => negb (expected_shape body)
  end.

(** The number 0. *)
Definition zero : double := Double 0 (-1).

(** The class that marks a long quote is on the quote element. *)
Definition long_quote (st : State) : Prop :=
  "long-quote" ∈ classList (quote (elements st)).

(** The quote that [newQuote] picks in the state [st]: the element of [data]
    at the index that the next random number gives. *)
Definition picked (st : State) : option Quote.t :=
  at_index (data st) (randomIndex (random st (drawn st)) (length (data st))).

(** ** What the further properties speak of *)

(** The random number whose product with the length [n] has floor [i]: the
    smallest multiple of [2 ^ -53] that is at least [i / n]. *)
Definition random_for (i n : Z) : double :=
  Double ((i * 2 ^ 53 + n - 1) / n) (-53).

(** The quotes that a remote outcome adds: the parsed array, or none. *)
Definition remote_quotes (remote : Remote) : list Quote.t :=
  match remote with
  | JsonResolves (BodyArray R) => R
  | _ => []
  end.

(** The page shows the quote [q]: the two texts are the ones that [setQuote]
    writes for it. *)
Definition shows (st : State) (q : Quote.t) : Prop :=
  textContent (quote (elements st)) = toTextContent (Quote.text q) /\
  textContent (author (elements st)) =
    " - " +:+ ToString (withDefault (Quote.author q) "Unknown").

(** The loader is in place of the main container. *)
Definition is_loading (st : State) : Prop :=
  hidden (loader (elements st)) = false /\
  hidden (mainContainer (elements st)) = true.

(** The main container is in place of the loader. *)
Definition done_loading (st : State) : Prop :=
  hidden (loader (elements st)) = true /\
  hidden (mainContainer (elements st)) = false.

(** One click on a button that [assignEventListener] gave a listener to: the
    listener runs, and an exception that it throws is reported by the
    browser and goes no further. *)
Definition click (listener : M unit) : M unit :=
  try_catch listener (fun _ => ret tt).

(** [n] clicks in a row. *)
Fixpoint clicks (listener : M unit) (n : nat) : M unit :=
  match n with
  | O => ret tt
  | S k => click listener;;; clicks listener k
  end.

(** The operations of the monad, unfolded. *)
Ltac unfold_js :=
  unfold loading, completeLoading, logError, console_error2, update_elements,
    window_open, length_of, when, gets, modify, bind, ret, throw in *.

(** * Properties *)

(** ** The index of the random pick *)

(** [Math.floor] of [m * 2 ^ (e - E)] is below [n] once [m * 2 ^ e] is below
    [n * 2 ^ E]. *)
Lemma Math_floor_lt m e E n :
  0 <= m -> 0 <= E -> m * 2 ^ e < n * 2 ^ E -> 0 <= e ->
  Z.shiftl m (e - E) < n.
Proof.
  intros Hm HE Hlt He.
  destruct (Z_le_gt_dec E e) as [Hle | Hgt].
  - rewrite Z.shiftl_mul_pow2 by lia.
    replace e with ((e - E) + E) in Hlt by lia.
    rewrite Z.pow_add_r in Hlt by lia.
    assert (0 < 2 ^ E) by (apply Z.pow_pos_nonneg; lia).
    nia.
  - replace (e - E) with (- (E - e)) by lia.
    change (Z.shiftl m (- (E - e))) with (Z.shiftr m (E - e)).
    rewrite Z.shiftr_div_pow2 by lia.
    apply Z.div_lt_upper_bound; [apply Z.pow_pos_nonneg; lia |].
    replace E with ((E - e) + e) in Hlt by lia.
    rewrite Z.pow_add_r in Hlt by lia.
    assert (0 < 2 ^ e) by (apply Z.pow_pos_nonneg; lia).
    nia.
Qed.

(** A number below one is at most [1 - 2 ^ -53]. *)
Lemma unit_interval_gap r :
  unit_interval r -> 2 ^ 53 * mant r <= (2 ^ 53 - 1) * 2 ^ (- expo r).
Proof.
  intros (Hm & He & Hlt).
  set (E := - expo r) in *.
  destruct (Z_le_gt_dec E 53) as [Hle | Hgt].
  - assert (2 ^ E <= 2 ^ 53) by (apply Z.pow_le_mono_r; lia).
    nia.
  - assert (2 ^ 53 <= 2 ^ E) by (apply Z.pow_le_mono_r; lia).
    nia.
Qed.

(** Rounding raises a value by at most the fraction [2 ^ -53] of it. *)
Lemma round53_upper m e :
  0 <= m ->
  let x := round53 m e in
  0 <= mant x /\ e <= expo x /\
  2 ^ 53 * (mant x * 2 ^ (expo x - e)) <= (2 ^ 53 + 1) * m.
Proof.
  intros Hm. unfold round53.
  set (s := Z.log2 m + 1 - 53).
  destruct (Z.leb_spec s 0) as [Hs | Hs]; simpl.
  - rewrite Z.sub_diag. simpl. lia.
  - assert (Hpos : 0 < m).
    { destruct (Z.eq_dec m 0) as [-> |]; [|lia]. unfold s in Hs. simpl in Hs. lia. }
    destruct (Z.log2_spec m Hpos) as [Hlo _].
    replace (Z.log2 m) with (52 + s) in Hlo by (unfold s; lia).
    rewrite Z.pow_add_r in Hlo by lia.
    replace (e + s - e) with s by lia.
    rewrite Z.shiftr_div_pow2, Z.land_ones by lia.
    assert (HS : 0 < 2 ^ s) by (apply Z.pow_pos_nonneg; lia).
    assert (Hhalf : 2 ^ s = 2 * 2 ^ (s - 1)).
    { replace s with (1 + (s - 1)) at 1 by lia. rewrite Z.pow_add_r by lia. reflexivity. }
    pose proof (Z.div_mod m (2 ^ s) ltac:(lia)) as Hdm.
    pose proof (Z.mod_pos_bound m (2 ^ s) HS) as Hmod.
    assert (Hq : 0 <= m / 2 ^ s) by (apply Z.div_pos; lia).
    set (q := m / 2 ^ s) in *. set (rest := m mod 2 ^ s) in *.
    set (half := 2 ^ (s - 1)) in *. set (S := 2 ^ s) in *.
    destruct (Z.ltb_spec half rest) as [H1 | H1]; simpl.
    + split; [lia|]. split; [lia|]. nia.
    + destruct (Z.eqb_spec rest half) as [H2 | H2]; simpl.
      * destruct (Z.odd q); (split; [lia|]); (split; [lia|]); nia.
      * split; [lia|]. split; [lia|]. nia.
Qed.

(** The rounded product [r * n] stays below [n], so its floor is an index of
    the array. *)
Lemma randomIndex_range r n :
  unit_interval r -> (0 < n)%nat ->
  0 <= randomIndex r n < Z.of_nat n.
Proof.
  intros Hr Hn. unfold randomIndex, mul_length, Math_floor.
  pose proof (unit_interval_gap r Hr) as Hgap.
  destruct Hr as (Hm & He & Hlt).
  assert (HM : 0 <= mant r * Z.of_nat n) by nia.
  pose proof (round53_upper (mant r * Z.of_nat n) (expo r) HM) as Hup.
  cbv zeta in Hup.
  set (x := round53 (mant r * Z.of_nat n) (expo r)) in *.
  destruct Hup as (Hx0 & Hxe & Hup).
  split; [apply Z.shiftl_nonneg; exact Hx0 |].
  replace (expo x) with ((expo x - expo r) - (- expo r)) by lia.
  apply Math_floor_lt; try lia.
  set (E := - expo r) in *. set (A := mant x * 2 ^ (expo x - expo r)) in *.
  assert (0 < 2 ^ E) by (apply Z.pow_pos_nonneg; lia).
  assert (HN : 0 < Z.of_nat n) by lia.
  set (N := Z.of_nat n) in *. set (P := 2 ^ E) in *. set (m := mant r) in *.
  assert (H1 : 2 ^ 53 * (2 ^ 53 * A) <= (2 ^ 53 + 1) * ((2 ^ 53 - 1) * P) * N).
  { transitivity (2 ^ 53 * ((2 ^ 53 + 1) * (m * N))); [lia|].
    replace (2 ^ 53 * ((2 ^ 53 + 1) * (m * N)))
      with ((2 ^ 53 + 1) * (2 ^ 53 * m) * N) by ring.
    apply Z.mul_le_mono_nonneg_r; [lia|].
    apply Z.mul_le_mono_nonneg_l; lia. }
  nia.
Qed.

Lemma unit_intervalb_spec r : unit_intervalb r = true -> unit_interval r.
Proof. unfold unit_intervalb, unit_interval. lia. Qed.

(** An index in range reads an element of the array. *)
Lemma at_index_member (d : list Quote.t) (i : Z) :
  0 <= i < Z.of_nat (length d) ->
  exists q, at_index d i = Some q /\ q ∈ d.
Proof.
  intros Hi. unfold at_index.
  destruct (Z.ltb_spec i 0) as [? | _]; [lia |].
  destruct (lookup_lt_is_Some_2 d (Z.to_nat i) ltac:(lia)) as [q Hq].
  exists q. split; [exact Hq |]. apply list_elem_of_lookup. eauto.
Qed.

(** ** Rendering: [setQuote] *)

(** Passing [undefined] throws before anything is written. *)
Lemma setQuote_undefined st :
  exists e, setQuote None st = (Throw e, set_rendered (rendered st ++ [None]) st).
Proof. eexists. reflexivity. Qed.

(** The two texts are written whatever the record holds. *)
Lemma setQuote_texts q st :
  let st' := (setQuote (Some q) st).2 in
  textContent (quote (elements st')) = toTextContent (Quote.text q) /\
  textContent (author (elements st')) =
    " - " +:+ ToString (withDefault (Quote.author q) "Unknown").
Proof.
  destruct q as [a [| | s]]; unfold setQuote; unfold_js; simpl; auto.
Qed.

(** With a string as text the render returns, and the class follows the
    length of the text. *)
Lemma setQuote_text q s st :
  Quote.text q = Str s ->
  let st' := (setQuote (Some q) st).2 in
  (setQuote (Some q) st).1 = Ok tt /\
  classList (quote (elements st')) =
    (if 120 <? Z.of_nat (String.length s)
     then {[ "long-quote" ]} ∪ classList (quote (elements st))
     else classList (quote (elements st)) ∖ {[ "long-quote" ]}).
Proof.
  destruct q as [a t]. simpl. intros ->.
  unfold setQuote; unfold_js; simpl.
  destruct (120 <? _); auto.
Qed.

(** Without one it throws. *)
Lemma setQuote_no_text q st :
  has_text q = false -> exists e, (setQuote (Some q) st).1 = Throw e.
Proof.
  destruct q as [a [| | s]]; unfold has_text; simpl;
    [eexists; reflexivity | eexists; reflexivity | discriminate].
Qed.

(** What a render leaves alone, and the trace it extends. *)
Lemma setQuote_frame arg st :
  let st' := (setQuote arg st).2 in
  data st' = data st /\ console st' = console st /\
  opened st' = opened st /\ drawn st' = drawn st /\ random st' = random st /\
  rendered st' = rendered st ++ [arg].
Proof.
  destruct arg as [[a [| | s]] |]; unfold setQuote; unfold_js; simpl; auto 10.
Qed.

Lemma long_quote_toggle (cl : gset string) (force : bool) :
  "long-quote" ∈ (if force then {[ "long-quote" ]} ∪ cl else cl ∖ {[ "long-quote" ]})
  <-> force = true.
Proof.
  destruct force.
  - split; [reflexivity |]. intros _.
    apply elem_of_union_l, elem_of_singleton. reflexivity.
  - split; [| discriminate]. intros [_ H]%elem_of_difference.
    exfalso. apply H, elem_of_singleton. reflexivity.
Qed.

(** C6: the author display of a rendered quote is " - " followed by the
    author string when the record has one, and " - Unknown" when the record
    has no author field. *)
Theorem setQuote_author_display (q : Quote.t) (st : State) :
  let shown := textContent (author (elements (setQuote (Some q) st).2)) in
  (forall s, Quote.author q = Str s -> shown = " - " +:+ s) /\
  (Quote.author q = Absent -> shown = " - Unknown").
Proof.
  cbv zeta. destruct (setQuote_texts q st) as [_ ->].
  split; [intros s -> | intros ->]; reflexivity.
Qed.

Lemma setQuote_author_display_witness :
  textContent (author (elements
    (setQuote (Some (Quote.Make (Str "X") (Str "A"))) (initial (fun _ => one_half))).2))
    = " - X" /\
  textContent (author (elements
    (setQuote (Some (Quote.Make Absent (Str "B"))) (initial (fun _ => one_half))).2))
    = " - Unknown".
Proof.
  split.
  - exact (proj1 (setQuote_author_display (Quote.Make (Str "X") (Str "A"))
                    (initial (fun _ => one_half))) "X" eq_refl).
  - exact (proj2 (setQuote_author_display (Quote.Make Absent (Str "B"))
                    (initial (fun _ => one_half))) eq_refl).
Defined.

(** C7: after rendering a quote whose text is the string [s], the
    "long-quote" class is on the quote element exactly when [s] has more
    than 120 code units. *)
Theorem setQuote_long_quote_iff (q : Quote.t) (s : string) (st : State) :
  Quote.text q = Str s ->
  long_quote (setQuote (Some q) st).2 <-> (120 < String.length s)%nat.
Proof.
  intros Ht. unfold long_quote.
  destruct (setQuote_text q s st Ht) as [_ ->].
  rewrite long_quote_toggle. rewrite Z.ltb_lt. lia.
Qed.

Lemma setQuote_long_quote_iff_witness :
  long_quote (setQuote (Some (Quote.Make Absent (Str (text_of_length 150))))
                       (initial (fun _ => one_half))).2 /\
  ~ long_quote (setQuote (Some (Quote.Make Absent (Str (text_of_length 50))))
                         (initial (fun _ => one_half))).2.
Proof.
  split.
  - apply (setQuote_long_quote_iff (Quote.Make Absent (Str (text_of_length 150)))
             (text_of_length 150) (initial (fun _ => one_half)) eq_refl).
    vm_compute. lia.
  - intros H.
    apply (setQuote_long_quote_iff (Quote.Make Absent (Str (text_of_length 50)))
             (text_of_length 50) (initial (fun _ => one_half)) eq_refl) in H.
    vm_compute in H. lia.
Defined.

(** C8: the default replaces an absent author only.  An author that is
    [null] is shown as " - null", an empty author as " - ", and any author
    field that is there is shown through [ToString]. *)
Theorem setQuote_author_default_only_absent (q : Quote.t) (st : State) :
  let shown := textContent (author (elements (setQuote (Some q) st).2)) in
  (Quote.author q = Null -> shown = " - null") /\
  (Quote.author q = Str EmptyString -> shown = " - ") /\
  (Quote.author q <> Absent -> shown = " - " +:+ ToString (Quote.author q)).
Proof.
  cbv zeta. destruct (setQuote_texts q st) as [_ ->].
  split; [intros -> | split; [intros -> | ]]; try reflexivity.
  destruct (Quote.author q); [congruence | reflexivity | reflexivity].
Qed.

Lemma setQuote_author_default_only_absent_witness :
  textContent (author (elements
    (setQuote (Some (Quote.Make Null (Str "A"))) (initial (fun _ => one_half))).2))
    = " - null" /\
  textContent (author (elements
    (setQuote (Some (Quote.Make (Str EmptyString) (Str "A"))) (initial (fun _ => one_half))).2))
    = " - ".
Proof.
  split.
  - exact (proj1 (setQuote_author_default_only_absent (Quote.Make Null (Str "A"))
                    (initial (fun _ => one_half))) eq_refl).
  - exact (proj1 (proj2 (setQuote_author_default_only_absent
                           (Quote.Make (Str EmptyString) (Str "A"))
                           (initial (fun _ => one_half)))) eq_refl).
Defined.

(** C10: the class after a render is a function of the rendered text alone:
    two renders of the same quote from any two pages agree on it, and a
    text of at most 120 code units leaves the page without the class even
    when the page had it before. *)
Theorem setQuote_long_quote_forgets (q : Quote.t) (s : string) (st1 st2 : State) :
  Quote.text q = Str s ->
  (long_quote (setQuote (Some q) st1).2 <-> long_quote (setQuote (Some q) st2).2) /\
  ((String.length s <= 120)%nat -> ~ long_quote (setQuote (Some q) st1).2).
Proof.
  intros Ht. unfold long_quote.
  destruct (setQuote_text q s st1 Ht) as [_ ->].
  destruct (setQuote_text q s st2 Ht) as [_ ->].
  rewrite !long_quote_toggle. split; [reflexivity |].
  intros Hlen. rewrite Z.ltb_lt. lia.
Qed.

Lemma setQuote_long_quote_forgets_witness :
  let long := Quote.Make Absent (Str (text_of_length 150)) in
  let short := Quote.Make Absent (Str (text_of_length 50)) in
  let st1 := (setQuote (Some long) (initial (fun _ => one_half))).2 in
  long_quote st1 /\ ~ long_quote (setQuote (Some short) st1).2.
Proof.
  cbv zeta. split.
  - unfold long_quote.
    destruct (setQuote_text (Quote.Make Absent (Str (text_of_length 150)))
                (text_of_length 150) (initial (fun _ => one_half)) eq_refl) as [_ ->].
    apply long_quote_toggle. reflexivity.
  - apply (setQuote_long_quote_forgets
             (Quote.Make Absent (Str (text_of_length 50))) (text_of_length 50)
             (setQuote (Some (Quote.Make Absent (Str (text_of_length 150))))
                       (initial (fun _ => one_half))).2
             (initial (fun _ => one_half)) eq_refl).
    vm_compute. lia.
Defined.

(** ** Selection: [newQuote] *)

Lemma at_index_nil i : at_index [] i = None.
Proof. unfold at_index. destruct (i <? 0); reflexivity. Qed.

(** [newQuote] of [script.js] is a render of the picked quote, between
    [loading] and [completeLoading], after the log of an empty array. *)
Lemma ScriptJs_newQuote_unfold st :
  ScriptJs.newQuote st =
    let st1 :=
      (when (Nat.eqb (length (data st)) 0) (logError "No quotes to display")
            (loading st).2).2 in
    match setQuote (picked st) (set_drawn (S (drawn st)) st1) with
    | (Ok _, st2) => completeLoading st2
    | (Throw e, st2) => (Throw e, st2)
    end.
Proof.
  unfold ScriptJs.newQuote, pickRandom, Math_random, picked. unfold_js. simpl.
  destruct (Nat.eqb _ _); reflexivity.
Qed.

(** The later revision returns before the pick when the array is empty. *)
Lemma Part001_newQuote_unfold st :
  Part001.newQuote st =
    if Nat.eqb (length (data st)) 0 then
      completeLoading (logError "No quotes to display" (loading st).2).2
    else
      match setQuote (picked st) (set_drawn (S (drawn st)) (loading st).2) with
      | (Ok _, st2) => completeLoading st2
      | (Throw e, st2) => (Throw e, st2)
      end.
Proof.
  unfold Part001.newQuote, pickRandom, Math_random, picked. unfold_js. simpl.
  destruct (Nat.eqb _ _); reflexivity.
Qed.

(** Neither revision of [newQuote] writes to [data]. *)
Lemma ScriptJs_newQuote_data st : data (ScriptJs.newQuote st).2 = data st.
Proof.
  rewrite ScriptJs_newQuote_unfold. cbv zeta.
  match goal with |- context [setQuote ?a ?s] =>
    destruct (setQuote_frame a s) as (Hd & _);
    destruct (setQuote a s) as [[[] | e] s'] end;
  simpl in *; rewrite Hd; destruct (Nat.eqb _ _); reflexivity.
Qed.

Lemma Part001_newQuote_data st : data (Part001.newQuote st).2 = data st.
Proof.
  rewrite Part001_newQuote_unfold.
  destruct (Nat.eqb _ _); [reflexivity |].
  match goal with |- context [setQuote ?a ?s] =>
    destruct (setQuote_frame a s) as (Hd & _);
    destruct (setQuote a s) as [[[] | e] s'] end;
  simpl in *; rewrite Hd; reflexivity.
Qed.

(** The render call that [newQuote] makes on an array that is not empty. *)
Lemma ScriptJs_newQuote_rendered st :
  rendered (ScriptJs.newQuote st).2 = rendered st ++ [picked st].
Proof.
  rewrite ScriptJs_newQuote_unfold. cbv zeta.
  match goal with |- context [setQuote ?a ?s] =>
    destruct (setQuote_frame a s) as (_ & _ & _ & _ & _ & Hr);
    destruct (setQuote a s) as [[[] | e] s'] end;
  simpl in *; rewrite Hr; destruct (Nat.eqb _ _); reflexivity.
Qed.

Lemma Part001_newQuote_rendered st :
  data st <> [] ->
  rendered (Part001.newQuote st).2 = rendered st ++ [picked st].
Proof.
  intros Hne. rewrite Part001_newQuote_unfold.
  destruct (data st) as [| q0 d] eqn:Hd; [congruence |]. simpl Nat.eqb. cbv iota.
  match goal with |- context [setQuote ?a ?s] =>
    destruct (setQuote_frame a s) as (_ & _ & _ & _ & _ & Hr);
    destruct (setQuote a s) as [[[] | e] s'] end;
  simpl in *; rewrite Hr; reflexivity.
Qed.

(** A pick from an array that is not empty, with a number of the unit
    interval, is an element of the array. *)
Lemma picked_member st :
  data st <> [] -> unit_interval (random st (drawn st)) ->
  exists q, picked st = Some q /\ q ∈ data st.
Proof.
  intros Hne Hr. apply at_index_member, randomIndex_range; [exact Hr |].
  destruct (data st); [congruence | simpl; lia].
Qed.

(** C5: on an array that is not empty and with a random number [r] of the
    unit interval, the index [Math.floor(r * data.length)] is within the
    array, and the quote that [newQuote] hands to [setQuote] is the element
    at that index, a member of the array. *)
Theorem newQuote_picks_member (st : State) :
  data st <> [] -> unit_interval (random st (drawn st)) ->
  let index := randomIndex (random st (drawn st)) (length (data st)) in
  0 <= index < Z.of_nat (length (data st)) /\
  exists q, at_index (data st) index = Some q /\ q ∈ data st /\
    rendered (ScriptJs.newQuote st).2 = rendered st ++ [Some q] /\
    rendered (Part001.newQuote st).2 = rendered st ++ [Some q].
Proof.
  intros Hne Hr. cbv zeta. split.
  - apply randomIndex_range; [exact Hr |].
    destruct (data st); [congruence | simpl; lia].
  - destruct (picked_member st Hne Hr) as (q & Hq & Hin).
    exists q. split; [exact Hq |]. split; [exact Hin |].
    rewrite ScriptJs_newQuote_rendered, Part001_newQuote_rendered by exact Hne.
    rewrite Hq. split; reflexivity.
Qed.

Lemma newQuote_picks_member_witness :
  let A := Quote.Make (Str "X") (Str "A") in
  let B := Quote.Make Absent (Str "B") in
  let st := set_data [A; B] (initial (fun _ => one_half)) in
  randomIndex one_half 2 = 1 /\
  rendered (ScriptJs.newQuote st).2 = [Some B] /\
  rendered (Part001.newQuote st).2 = [Some B].
Proof.
  cbv zeta. split; [reflexivity |].
  destruct (newQuote_picks_member
              (set_data [Quote.Make (Str "X") (Str "A"); Quote.Make Absent (Str "B")]
                        (initial (fun _ => one_half))))
    as (_ & q & Hq & _ & H1 & H2).
  - discriminate.
  - apply unit_intervalb_spec. reflexivity.
  - vm_compute in Hq. injection Hq as <-. split; [exact H1 | exact H2].
Defined.

(** C1, in [script.js]: on an empty array [newQuote] logs the error and then
    calls [setQuote] all the same, with [undefined]; the call throws, the two
    texts stay as they were, and [completeLoading] is not reached, so the
    loader stays in place of the main container. *)
Theorem ScriptJs_newQuote_empty_renders_undefined (st : State) :
  data st = [] ->
  let st' := (ScriptJs.newQuote st).2 in
  (exists e, (ScriptJs.newQuote st).1 = Throw e) /\
  rendered st' = rendered st ++ [None] /\
  console st' = console st ++ [[LogStr "No quotes to display"]] /\
  quote (elements st') = quote (elements st) /\
  author (elements st') = author (elements st) /\
  hidden (loader (elements st')) = false /\
  hidden (mainContainer (elements st')) = true.
Proof.
  intros Hd. cbv zeta. rewrite ScriptJs_newQuote_unfold. cbv zeta.
  unfold picked. rewrite Hd, at_index_nil. simpl.
  split; [eexists; reflexivity |]. auto 10.
Qed.

Lemma ScriptJs_newQuote_empty_renders_undefined_witness :
  let st := initial (fun _ => one_half) in
  rendered (ScriptJs.newQuote st).2 = [None] /\
  hidden (loader (elements (ScriptJs.newQuote st).2)) = false.
Proof.
  cbv zeta.
  destruct (ScriptJs_newQuote_empty_renders_undefined (initial (fun _ => one_half)) eq_refl)
    as (_ & Hr & _ & _ & _ & Hl & _).
  split; [exact Hr | exact Hl].
Defined.

(** The later revision does what C1 says: on an empty array it logs the
    error, makes no render call, leaves the quote and the author elements as
    they were and returns. *)
Lemma Part001_newQuote_empty (st : State) :
  data st = [] ->
  let st' := (Part001.newQuote st).2 in
  (Part001.newQuote st).1 = Ok tt /\
  rendered st' = rendered st /\
  console st' = console st ++ [[LogStr "No quotes to display"]] /\
  quote (elements st') = quote (elements st) /\
  author (elements st') = author (elements st).
Proof.
  intros Hd. cbv zeta. rewrite Part001_newQuote_unfold. rewrite Hd. simpl. auto.
Qed.

(** [newQuote] returns when the array is not empty, the random number is in
    the unit interval and every record has a text. *)
Lemma picked_has_text st :
  data st <> [] -> unit_interval (random st (drawn st)) ->
  Forall (fun q => has_text q = true) (data st) ->
  exists q s, picked st = Some q /\ Quote.text q = Str s.
Proof.
  intros Hne Hr Hall.
  destruct (picked_member st Hne Hr) as (q & Hq & Hin).
  rewrite Forall_forall in Hall. specialize (Hall q Hin).
  unfold has_text in Hall. destruct (Quote.text q) as [| | s] eqn:Ht; try discriminate.
  exists q, s. auto.
Qed.

Lemma ScriptJs_newQuote_ok st :
  data st <> [] -> unit_interval (random st (drawn st)) ->
  Forall (fun q => has_text q = true) (data st) ->
  (ScriptJs.newQuote st).1 = Ok tt.
Proof.
  intros Hne Hr Hall.
  destruct (picked_has_text st Hne Hr Hall) as (q & s & Hq & Ht).
  rewrite ScriptJs_newQuote_unfold. cbv zeta. rewrite Hq.
  match goal with |- context [setQuote ?a ?s0] =>
    destruct (setQuote_text q s s0 Ht) as [Hok _];
    destruct (setQuote a s0) as [[[] | e] s'] end;
  simpl in *; [reflexivity | discriminate].
Qed.

Lemma Part001_newQuote_ok st :
  unit_interval (random st (drawn st)) ->
  Forall (fun q => has_text q = true) (data st) ->
  (Part001.newQuote st).1 = Ok tt.
Proof.
  intros Hr Hall. rewrite Part001_newQuote_unfold.
  destruct (data st) as [| q0 d] eqn:Hd; [reflexivity |].
  assert (Hne : data st <> []) by congruence.
  rewrite <- Hd in Hall.
  destruct (picked_has_text st Hne Hr Hall) as (q & s & Hq & Ht).
  simpl Nat.eqb. cbv iota. rewrite Hq.
  match goal with |- context [setQuote ?a ?s0] =>
    destruct (setQuote_text q s s0 Ht) as [Hok _];
    destruct (setQuote a s0) as [[[] | e] s'] end;
  simpl in *; [reflexivity | discriminate].
Qed.

(** [newQuote] only adds to the console. *)
Lemma ScriptJs_newQuote_console st :
  exists rest, console (ScriptJs.newQuote st).2 = console st ++ rest.
Proof.
  rewrite ScriptJs_newQuote_unfold. cbv zeta.
  match goal with |- context [setQuote ?a ?s] =>
    destruct (setQuote_frame a s) as (_ & Hc & _);
    destruct (setQuote a s) as [[[] | e] s'] end;
  simpl in *; rewrite Hc; destruct (Nat.eqb _ _); simpl;
    first [ by eexists | by (exists []; rewrite app_nil_r) ].
Qed.

Lemma Part001_newQuote_console st :
  exists rest, console (Part001.newQuote st).2 = console st ++ rest.
Proof.
  rewrite Part001_newQuote_unfold.
  destruct (Nat.eqb _ _); [by eexists |].
  match goal with |- context [setQuote ?a ?s] =>
    destruct (setQuote_frame a s) as (_ & Hc & _);
    destruct (setQuote a s) as [[[] | e] s'] end;
  simpl in *; rewrite Hc; by (exists []; rewrite app_nil_r).
Qed.

(** ** Acquisition: [getQuotes] *)

(** A failed remote call runs the [catch] clause. *)
Lemma ScriptJs_getQuotes_failure L remote e st :
  remote_error remote = Some e ->
  ScriptJs.getQuotes L remote st =
    ScriptJs.newQuote
      (set_data L (console_error2 "Error fetching quotes" e (loading st).2).2).
Proof.
  destruct remote as [e' | e' | [R |]]; simpl; intros [= <-]; reflexivity.
Qed.

Lemma Part001_getQuotes_failure L remote e st :
  remote_error remote = Some e ->
  Part001.getQuotes L remote st =
    Part001.newQuote
      (set_data L (logError ("Error fetching quotes: " +:+ errorToString e)
                            (loading st).2).2).
Proof.
  destruct remote as [e' | e' | [R |]]; simpl; intros [= <-]; reflexivity.
Qed.

(** A parsed array is stored behind the local list and a quote is shown; the
    [catch] clause also runs when showing it throws. *)
Lemma ScriptJs_getQuotes_success L R st :
  ScriptJs.getQuotes L (JsonResolves (BodyArray R)) st =
    match ScriptJs.newQuote (set_data (L ++ R) (loading st).2) with
    | (Ok a, st') => (Ok a, st')
    | (Throw e, st') =>
        ScriptJs.newQuote (set_data L (console_error2 "Error fetching quotes" e st').2)
    end.
Proof. reflexivity. Qed.

Lemma Part001_getQuotes_success L R st :
  Part001.getQuotes L (JsonResolves (BodyArray R)) st =
    match Part001.newQuote (set_data (L ++ R) (loading st).2) with
    | (Ok a, st') => (Ok a, st')
    | (Throw e, st') =>
        Part001.newQuote
          (set_data L (logError ("Error fetching quotes: " +:+ errorToString e) st').2)
    end.
Proof. reflexivity. Qed.

Lemma remote_cases remote :
  (exists e, remote_error remote = Some e /\ remote_fails remote = true) \/
  (exists R, remote = JsonResolves (BodyArray R) /\ remote_fails remote = false).
Proof. destruct remote as [e | e | [R |]]; simpl; eauto. Qed.

(** After [getQuotes] the array is the local list, or the local list
    followed by the parsed array. *)
Lemma ScriptJs_getQuotes_data L remote st :
  let st' := (ScriptJs.getQuotes L remote st).2 in
  data st' = L \/ exists R, remote = JsonResolves (BodyArray R) /\ data st' = L ++ R.
Proof.
  cbv zeta. destruct (remote_cases remote) as [(e & He & _) | (R & -> & _)].
  - left. rewrite (ScriptJs_getQuotes_failure L remote e st He).
    apply ScriptJs_newQuote_data.
  - rewrite ScriptJs_getQuotes_success.
    pose proof (ScriptJs_newQuote_data (set_data (L ++ R) (loading st).2)) as Hd.
    destruct (ScriptJs.newQuote _) as [[[] | e] st1]; simpl in Hd.
    + right. eauto.
    + left. apply ScriptJs_newQuote_data.
Qed.

Lemma Part001_getQuotes_data L remote st :
  let st' := (Part001.getQuotes L remote st).2 in
  data st' = L \/ exists R, remote = JsonResolves (BodyArray R) /\ data st' = L ++ R.
Proof.
  cbv zeta. destruct (remote_cases remote) as [(e & He & _) | (R & -> & _)].
  - left. rewrite (Part001_getQuotes_failure L remote e st He).
    apply Part001_newQuote_data.
  - rewrite Part001_getQuotes_success.
    pose proof (Part001_newQuote_data (set_data (L ++ R) (loading st).2)) as Hd.
    destruct (Part001.newQuote _) as [[[] | e] st1]; simpl in Hd.
    + right. eauto.
    + left. apply Part001_newQuote_data.
Qed.

(** Showing a record whose text is missing or [null] throws, in both
    revisions. *)
Lemma ScriptJs_newQuote_no_text st q :
  picked st = Some q -> has_text q = false ->
  exists e, (ScriptJs.newQuote st).1 = Throw e.
Proof.
  intros Hq Ht. rewrite ScriptJs_newQuote_unfold. cbv zeta. rewrite Hq.
  match goal with |- context [setQuote ?a ?s0] =>
    destruct (setQuote_no_text q s0 Ht) as [e He];
    destruct (setQuote a s0) as [[[] | e'] s'] end;
  simpl in *; [discriminate | eauto].
Qed.

Lemma Part001_newQuote_no_text st q :
  picked st = Some q -> has_text q = false ->
  exists e, (Part001.newQuote st).1 = Throw e.
Proof.
  intros Hq Ht. rewrite Part001_newQuote_unfold.
  destruct (data st) as [| q0 d] eqn:Hd.
  { unfold picked in Hq. rewrite Hd, at_index_nil in Hq. discriminate. }
  simpl Nat.eqb. cbv iota. rewrite Hq.
  match goal with |- context [setQuote ?a ?s0] =>
    destruct (setQuote_no_text q s0 Ht) as [e He];
    destruct (setQuote a s0) as [[[] | e'] s'] end;
  simpl in *; [discriminate | eauto].
Qed.

(** The [try] block covers the first render: when the record picked from the
    merged array has a text that is missing or [null], the [catch] clause
    runs although the fetch succeeded, and [data] falls back to the local
    list. *)
Lemma getQuotes_falls_back_on_render_failure L R st q :
  picked (set_data (L ++ R) st) = Some q -> has_text q = false ->
  data (ScriptJs.getQuotes L (JsonResolves (BodyArray R)) st).2 = L /\
  data (Part001.getQuotes L (JsonResolves (BodyArray R)) st).2 = L.
Proof.
  intros Hq Ht.
  rewrite ScriptJs_getQuotes_success, Part001_getQuotes_success.
  destruct (ScriptJs_newQuote_no_text (set_data (L ++ R) (loading st).2) q Hq Ht)
    as [e1 H1].
  destruct (Part001_newQuote_no_text (set_data (L ++ R) (loading st).2) q Hq Ht)
    as [e2 H2].
  split.
  - destruct (ScriptJs.newQuote (set_data (L ++ R) (loading st).2))
      as [[[] | e] st1]; [discriminate |].
    apply ScriptJs_newQuote_data.
  - destruct (Part001.newQuote (set_data (L ++ R) (loading st).2))
      as [[[] | e] st1]; [discriminate |].
    apply Part001_newQuote_data.
Qed.

(** When the [try] block throws before [newQuote] (the fetch rejects, the
    body does not parse, or the parsed body cannot be spread), [getQuotes]
    logs the error and leaves [data] equal to the local list. *)
Lemma getQuotes_remote_failure (localQuotes : list Quote.t) (remote : Remote)
    (st : State) :
  remote_fails remote = true ->
  exists e, remote_error remote = Some e /\
    (let st' := (ScriptJs.getQuotes localQuotes remote st).2 in
     data st' = localQuotes /\
     exists rest,
       console st' = console st ++ [LogStr "Error fetching quotes"; LogErr e] :: rest) /\
    (let st' := (Part001.getQuotes localQuotes remote st).2 in
     data st' = localQuotes /\
     exists rest,
       console st' =
         console st ++ [LogStr ("Error fetching quotes: " +:+ errorToString e)] :: rest).
Proof.
  intros Hf.
  destruct (remote_cases remote) as [(e & He & _) | (R & -> & ?)]; [| discriminate].
  exists e. split; [exact He |]. cbv zeta.
  rewrite (ScriptJs_getQuotes_failure localQuotes remote e st He).
  rewrite (Part001_getQuotes_failure localQuotes remote e st He).
  rewrite ScriptJs_newQuote_data, Part001_newQuote_data.
  split; (split; [reflexivity |]).
  - destruct (ScriptJs_newQuote_console
                (set_data localQuotes
                   (console_error2 "Error fetching quotes" e (loading st).2).2))
      as [rest ->].
    exists rest. simpl. rewrite <- app_assoc. reflexivity.
  - destruct (Part001_newQuote_console
                (set_data localQuotes
                   (logError ("Error fetching quotes: " +:+ errorToString e)
                             (loading st).2).2))
      as [rest ->].
    exists rest. simpl. rewrite <- app_assoc. reflexivity.
Qed.

(** [newQuote] on a pick whose text is missing or [null]: the same [TypeError] in both
    revisions, and nothing logged. *)
Lemma newQuote_no_text_eq st q :
  picked st = Some q -> has_text q = false ->
  exists msg st1,
    ScriptJs.newQuote st = (Throw (TypeError msg), st1) /\
    Part001.newQuote st = (Throw (TypeError msg), st1) /\
    console st1 = console st.
Proof.
  intros Hq Ht.
  assert (Hne : data st <> []).
  { intros Hd. unfold picked in Hq. rewrite Hd, at_index_nil in Hq. discriminate. }
  rewrite ScriptJs_newQuote_unfold, Part001_newQuote_unfold.
  destruct (data st) as [| q0 d] eqn:Hd; [congruence |].
  simpl Nat.eqb. cbv iota zeta. rewrite Hq.
  destruct q as [a [| | s]]; unfold has_text in Ht; simpl in Ht; try discriminate;
    unfold setQuote; unfold_js; simpl; do 2 eexists; repeat split; reflexivity.
Qed.

(** The [try] block covers the first render.  When the fetch succeeds and
    the record picked from the merged array has a text that is missing or
    [null], the [TypeError] of the render is what the [catch] clause
    receives: it is logged under "Error fetching quotes" and [data] goes
    back to the local list. *)
Lemma getQuotes_render_failure (localQuotes R : list Quote.t) (st : State)
    (q : Quote.t) :
  picked (set_data (localQuotes ++ R) st) = Some q -> has_text q = false ->
  exists msg,
    (let st' := (ScriptJs.getQuotes localQuotes (JsonResolves (BodyArray R)) st).2 in
     data st' = localQuotes /\
     exists rest,
       console st' =
         console st ++ [LogStr "Error fetching quotes"; LogErr (TypeError msg)] :: rest) /\
    (let st' := (Part001.getQuotes localQuotes (JsonResolves (BodyArray R)) st).2 in
     data st' = localQuotes /\
     exists rest,
       console st' =
         console st ++
         [LogStr ("Error fetching quotes: " +:+ errorToString (TypeError msg))] :: rest).
Proof.
  intros Hq Ht.
  destruct (newQuote_no_text_eq (set_data (localQuotes ++ R) (loading st).2) q Hq Ht)
    as (msg & st1 & H1 & H2 & Hc).
  exists msg. cbv zeta.
  rewrite ScriptJs_getQuotes_success, Part001_getQuotes_success, H1, H2.
  rewrite ScriptJs_newQuote_data, Part001_newQuote_data.
  split; (split; [reflexivity |]).
  - match goal with |- context [ScriptJs.newQuote ?s] =>
      destruct (ScriptJs_newQuote_console s) as [rest ->] end.
    exists rest. simpl. rewrite Hc. simpl. rewrite <- app_assoc. reflexivity.
  - match goal with |- context [Part001.newQuote ?s] =>
      destruct (Part001_newQuote_console s) as [rest ->] end.
    exists rest. simpl. rewrite Hc. simpl. rewrite <- app_assoc. reflexivity.
Qed.


(** C2, as the code has it: [getQuotes] logs the failure and leaves [data]
    equal to the local list, in its order and with nothing from the remote,
    in every run in which the fetch rejects, the body does not parse, the
    parsed body cannot be spread, or the record picked for display from the
    parsed array has a text that is missing or [null]. *)
Theorem getQuotes_failure_falls_back (localQuotes : list Quote.t) (remote : Remote)
    (st : State) :
  remote_fails remote = true \/
  (exists q,
     picked (set_data (localQuotes ++ remote_quotes remote) st) = Some q /\
     has_text q = false) ->
  exists e,
    (let st' := (ScriptJs.getQuotes localQuotes remote st).2 in
     data st' = localQuotes /\
     exists rest,
       console st' = console st ++ [LogStr "Error fetching quotes"; LogErr e] :: rest) /\
    (let st' := (Part001.getQuotes localQuotes remote st).2 in
     data st' = localQuotes /\
     exists rest,
       console st' =
         console st ++ [LogStr ("Error fetching quotes: " +:+ errorToString e)] :: rest).
Proof.
  intros H.
  destruct (remote_cases remote) as [(e & He & Hf) | (R & -> & Hf)].
  - destruct (getQuotes_remote_failure localQuotes remote st Hf)
      as (e' & _ & H1 & H2).
    exists e'. split; [exact H1 | exact H2].
  - destruct H as [H | (q & Hq & Ht)]; [discriminate |].
    simpl remote_quotes in Hq.
    destruct (getQuotes_render_failure localQuotes R st q Hq Ht) as (msg & H1 & H2).
    exists (TypeError msg). split; [exact H1 | exact H2].
Qed.

Lemma getQuotes_failure_falls_back_witness :
  let A := Quote.Make (Str "X") (Str "A") in
  let bad := Quote.Make (Str "Y") Absent in
  let st := initial (fun _ => one_half) in
  (data (ScriptJs.getQuotes [A] (FetchRejects (TypeError "Failed to fetch")) st).2 = [A] /\
   data (Part001.getQuotes [A] (FetchRejects (TypeError "Failed to fetch")) st).2 = [A]) /\
  (data (ScriptJs.getQuotes [A] (JsonResolves (BodyArray [bad])) st).2 = [A] /\
   data (Part001.getQuotes [A] (JsonResolves (BodyArray [bad])) st).2 = [A]).
Proof.
  cbv zeta. split.
  - destruct (getQuotes_failure_falls_back [Quote.Make (Str "X") (Str "A")]
                (FetchRejects (TypeError "Failed to fetch"))
                (initial (fun _ => one_half)) (or_introl eq_refl))
      as (e & (H1 & _) & (H2 & _)).
    split; [exact H1 | exact H2].
  - destruct (getQuotes_failure_falls_back [Quote.Make (Str "X") (Str "A")]
                (JsonResolves (BodyArray [Quote.Make (Str "Y") Absent]))
                (initial (fun _ => one_half)))
      as (e & (H1 & _) & (H2 & _)).
    + right. exists (Quote.Make (Str "Y") Absent). split; [| reflexivity].
      vm_compute. reflexivity.
    + split; [exact H1 | exact H2].
Defined.

(** C2 as it is written fails.  The body parses to an array whose record has
    no text, which the specification counts as a malformed shape; the random
    number 0 picks the local quote, the render returns, and both revisions
    keep the malformed record in [data] and log nothing. *)
Lemma getQuotes_failure_falls_back_counterexample :
  let A := Quote.Make (Str "X") (Str "A") in
  let bad := Quote.Make (Str "Y") Absent in
  let remote := JsonResolves (BodyArray [bad]) in
  let st := initial (fun _ => zero) in
  spec_remote_fails remote = true /\
  unit_interval (random st (drawn st)) /\
  data (ScriptJs.getQuotes [A] remote st).2 = [A; bad] /\
  console (ScriptJs.getQuotes [A] remote st).2 = [] /\
  data (Part001.getQuotes [A] remote st).2 = [A; bad] /\
  console (Part001.getQuotes [A] remote st).2 = [] /\
  data (ScriptJs.getQuotes [A] remote st).2 <> [A] /\
  data (Part001.getQuotes [A] remote st).2 <> [A].
Proof.
  cbv zeta. split; [reflexivity |].
  split; [apply unit_intervalb_spec; reflexivity |].
  assert (H1 : data (ScriptJs.getQuotes [Quote.Make (Str "X") (Str "A")]
                 (JsonResolves (BodyArray [Quote.Make (Str "Y") Absent]))
                 (initial (fun _ => zero))).2
               = [Quote.Make (Str "X") (Str "A"); Quote.Make (Str "Y") Absent])
    by (vm_compute; reflexivity).
  assert (H2 : data (Part001.getQuotes [Quote.Make (Str "X") (Str "A")]
                 (JsonResolves (BodyArray [Quote.Make (Str "Y") Absent]))
                 (initial (fun _ => zero))).2
               = [Quote.Make (Str "X") (Str "A"); Quote.Make (Str "Y") Absent])
    by (vm_compute; reflexivity).
  rewrite H1, H2.
  split; [reflexivity |]. split; [vm_compute; reflexivity |].
  split; [reflexivity |]. split; [vm_compute; reflexivity |].
  split; discriminate.
Qed.

(** C3: whatever the remote call does, [data] after [getQuotes] is at least
    as long as the local list, and is not empty when the local list is not
    empty. *)
Theorem getQuotes_keeps_local (localQuotes : list Quote.t) (remote : Remote)
    (st : State) :
  (let st' := (ScriptJs.getQuotes localQuotes remote st).2 in
   (length localQuotes <= length (data st'))%nat /\
   (localQuotes <> [] -> data st' <> [])) /\
  (let st' := (Part001.getQuotes localQuotes remote st).2 in
   (length localQuotes <= length (data st'))%nat /\
   (localQuotes <> [] -> data st' <> [])).
Proof.
  cbv zeta.
  destruct (ScriptJs_getQuotes_data localQuotes remote st) as [-> | (R1 & _ & ->)];
  destruct (Part001_getQuotes_data localQuotes remote st) as [-> | (R2 & _ & ->)];
  rewrite ?length_app; repeat split; try lia; try done;
  intros Hne Happ; apply app_eq_nil in Happ; destruct Happ; done.
Qed.

Lemma getQuotes_keeps_local_witness :
  let L := [Quote.Make (Str "X") (Str "A")] in
  let remote := JsonResolves (BodyArray [Quote.Make Absent (Str "B")]) in
  let st := initial (fun _ => one_half) in
  data (ScriptJs.getQuotes L remote st).2 <> [] /\
  data (Part001.getQuotes L remote st).2 <> [].
Proof.
  cbv zeta.
  destruct (getQuotes_keeps_local [Quote.Make (Str "X") (Str "A")]
              (JsonResolves (BodyArray [Quote.Make Absent (Str "B")]))
              (initial (fun _ => one_half)))
    as ((_ & H1) & (_ & H2)).
  split; [apply H1 | apply H2]; discriminate.
Defined.

(** C4: when the remote call succeeds with the list [R] of quotes, [data]
    after [getQuotes] is the local list followed by [R], in that order and
    with duplicates kept.  Quotes are as the data model has them: every
    record of the local list and of [R] has a string as its text; and the
    random number is in the unit interval. *)
Theorem getQuotes_remote_success (localQuotes R : list Quote.t) (st : State) :
  unit_interval (random st (drawn st)) ->
  Forall (fun q => has_text q = true) (localQuotes ++ R) ->
  data (ScriptJs.getQuotes localQuotes (JsonResolves (BodyArray R)) st).2
    = localQuotes ++ R /\
  data (Part001.getQuotes localQuotes (JsonResolves (BodyArray R)) st).2
    = localQuotes ++ R.
Proof.
  intros Hr Hall. split.
  - destruct (ScriptJs_getQuotes_data localQuotes (JsonResolves (BodyArray R)) st)
      as [HL | (R' & [= <-] & H)]; [| exact H].
    destruct (decide (localQuotes ++ R = [])) as [Hnil | Hne].
    + rewrite HL. apply app_eq_nil in Hnil as [-> ->]. reflexivity.
    + rewrite ScriptJs_getQuotes_success.
      pose proof (ScriptJs_newQuote_ok (set_data (localQuotes ++ R) (loading st).2)
                    Hne Hr Hall) as Hok.
      pose proof (ScriptJs_newQuote_data (set_data (localQuotes ++ R) (loading st).2))
        as Hd.
      destruct (ScriptJs.newQuote _) as [[[] | e] st1]; simpl in *;
        [exact Hd | discriminate].
  - rewrite Part001_getQuotes_success.
    pose proof (Part001_newQuote_ok (set_data (localQuotes ++ R) (loading st).2)
                  Hr Hall) as Hok.
    pose proof (Part001_newQuote_data (set_data (localQuotes ++ R) (loading st).2))
      as Hd.
    destruct (Part001.newQuote _) as [[[] | e] st1]; simpl in *;
      [exact Hd | discriminate].
Qed.

Lemma getQuotes_remote_success_witness :
  let A := Quote.Make (Str "X") (Str "A") in
  let B := Quote.Make Absent (Str "B") in
  let st := initial (fun _ => one_half) in
  data (ScriptJs.getQuotes [A; B] (JsonResolves (BodyArray [B; A])) st).2
    = [A; B; B; A] /\
  data (Part001.getQuotes [A; B] (JsonResolves (BodyArray [B; A])) st).2
    = [A; B; B; A].
Proof.
  cbv zeta.
  apply (getQuotes_remote_success
           [Quote.Make (Str "X") (Str "A"); Quote.Make Absent (Str "B")]
           [Quote.Make Absent (Str "B"); Quote.Make (Str "X") (Str "A")]
           (initial (fun _ => one_half))).
  - apply unit_intervalb_spec. reflexivity.
  - repeat constructor.
Defined.

(** A body outside the data model: an array of one record that has no
    text.  Showing that record throws inside the [try] block, the [catch]
    clause stores the local list alone, and [data] ends empty. *)
Lemma getQuotes_textless_record_example :
  let R := [Quote.Make (Str "Y") Absent] in
  let remote := JsonResolves (BodyArray R) in
  let st := initial (fun _ => one_half) in
  remote_fails remote = false /\
  unit_interval (random st (drawn st)) /\
  data (ScriptJs.getQuotes [] remote st).2 = [] /\
  data (Part001.getQuotes [] remote st).2 = [] /\
  data (ScriptJs.getQuotes [] remote st).2 <> [] ++ R /\
  data (Part001.getQuotes [] remote st).2 <> [] ++ R.
Proof.
  cbv zeta. split; [reflexivity |].
  split; [apply unit_intervalb_spec; reflexivity |].
  assert (H1 : data (ScriptJs.getQuotes [] (JsonResolves
                 (BodyArray [Quote.Make (Str "Y") Absent]))
                 (initial (fun _ => one_half))).2 = []) by (vm_compute; reflexivity).
  assert (H2 : data (Part001.getQuotes [] (JsonResolves
                 (BodyArray [Quote.Make (Str "Y") Absent]))
                 (initial (fun _ => one_half))).2 = []) by (vm_compute; reflexivity).
  rewrite H1, H2. repeat split; discriminate.
Qed.

(** ** Sharing: [shareQuote] *)

(** C9: [shareQuote] of [script.js] opens the share window in every state.
    When the quote text or the author text is empty it logs "No quote or
    author to share" and opens the window all the same, where the later
    revision logs the same message and returns without opening or sharing
    anything. *)
Theorem ScriptJs_shareQuote_always_opens (encodeURIComponent : string -> string)
    (st : State) :
  let quoteText := textContent (quote (elements st)) in
  let authorText := textContent (author (elements st)) in
  let twitterUrl :=
    "https://twitter.com/intent/tweet?text="
    +:+ encodeURIComponent (dquote +:+ quoteText +:+ dquote +:+ " - " +:+ authorText) in
  let st' := (ScriptJs.shareQuote encodeURIComponent st).2 in
  (ScriptJs.shareQuote encodeURIComponent st).1 = Ok tt /\
  opened st' = opened st ++ [(twitterUrl, "_blank")] /\
  (quoteText = EmptyString \/ authorText = EmptyString ->
   console st' = console st ++ [[LogStr "No quote or author to share"]] /\
   forall navigator_share location_href,
     let st2 :=
       (Part001.shareQuote encodeURIComponent navigator_share location_href st).2 in
     console st2 = console st ++ [[LogStr "No quote or author to share"]] /\
     opened st2 = opened st /\ shared st2 = shared st).
Proof.
  cbv zeta. unfold ScriptJs.shareQuote, Part001.shareQuote. unfold_js. simpl.
  destruct (falsy (textContent (quote (elements st)))) eqn:Hq;
  destruct (falsy (textContent (author (elements st)))) eqn:Ha; simpl;
    (split; [reflexivity |]); (split; [reflexivity |]); auto.
  intros [H | H]; rewrite H in *; discriminate.
Qed.

Lemma ScriptJs_shareQuote_always_opens_witness :
  let st := initial (fun _ => one_half) in
  opened (ScriptJs.shareQuote (fun s => s) st).2 =
    [("https://twitter.com/intent/tweet?text=" +:+ dquote +:+ dquote +:+ " - ",
      "_blank")] /\
  console (ScriptJs.shareQuote (fun s => s) st).2 =
    [[LogStr "No quote or author to share"]] /\
  opened (Part001.shareQuote (fun s => s) None "https://example.org/" st).2 = [].
Proof.
  cbv zeta.
  destruct (ScriptJs_shareQuote_always_opens (fun s => s) (initial (fun _ => one_half)))
    as (_ & Ho & Hc).
  destruct (Hc (or_introl eq_refl)) as (Hlog & Hp).
  destruct (Hp None "https://example.org/") as (_ & Hop & _).
  split; [exact Ho |]. split; [exact Hlog | exact Hop].
Defined.

(** * Further properties *)

(** ** The page around a render *)

(** A render touches the quote and the author elements only, and on the
    quote element no class but "long-quote". *)
Theorem setQuote_keeps_rest_of_page (arg : option Quote.t) (st : State) :
  let st' := (setQuote arg st).2 in
  loader (elements st') = loader (elements st) /\
  mainContainer (elements st') = mainContainer (elements st) /\
  classList (author (elements st')) = classList (author (elements st)) /\
  hidden (quote (elements st')) = hidden (quote (elements st)) /\
  hidden (author (elements st')) = hidden (author (elements st)) /\
  (forall c, c <> "long-quote" ->
     c ∈ classList (quote (elements st')) <-> c ∈ classList (quote (elements st))) /\
  data st' = data st /\ console st' = console st /\
  opened st' = opened st /\ shared st' = shared st.
Proof.
  destruct arg as [[a [| | s]] |]; unfold setQuote; unfold_js; simpl;
    repeat (split; [reflexivity |]); try (split; [| auto]); try done.
  intros c Hc. destruct (120 <? _).
  - rewrite elem_of_union, elem_of_singleton. tauto.
  - rewrite elem_of_difference, elem_of_singleton. tauto.
Qed.

(** A forced toggle forgets an earlier one of the same token. *)
Lemma toggle_twice (token : string) (f1 f2 : bool) (cl : gset string) :
  let cl1 := if f1 then {[token]} ∪ cl else cl ∖ {[token]} in
  (if f2 then {[token]} ∪ cl1 else cl1 ∖ {[token]})
    = (if f2 then {[token]} ∪ cl else cl ∖ {[token]}).
Proof.
  cbv zeta. apply set_eq. intros x.
  destruct f1, f2;
    rewrite ?elem_of_union, ?elem_of_difference, ?elem_of_union,
      ?elem_of_difference, ?elem_of_singleton;
    destruct (decide (x = token)); tauto.
Qed.

(** A second render overwrites the first: the elements after rendering [q1]
    and then [q2] are the elements after rendering [q2] alone. *)
Theorem setQuote_last_render_wins (q1 q2 : Quote.t) (st : State) :
  has_text q1 = true -> has_text q2 = true ->
  elements (setQuote (Some q2) (setQuote (Some q1) st).2).2
    = elements (setQuote (Some q2) st).2.
Proof.
  destruct q1 as [a1 [| | s1]], q2 as [a2 [| | s2]]; unfold has_text; simpl;
    try discriminate. intros _ _.
  unfold setQuote; unfold_js; simpl.
  unfold on_quote, on_author, classList_toggle, set_textContent; simpl.
  f_equal. f_equal.
  apply (toggle_twice "long-quote" (120 <? Z.of_nat (String.length s1))
           (120 <? Z.of_nat (String.length s2))).
Qed.

Lemma setQuote_last_render_wins_witness :
  let long := Quote.Make Absent (Str (text_of_length 150)) in
  let short := Quote.Make (Str "X") (Str "A") in
  let st := initial (fun _ => one_half) in
  elements (setQuote (Some short) (setQuote (Some long) st).2).2
    = elements (setQuote (Some short) st).2.
Proof.
  cbv zeta.
  apply (setQuote_last_render_wins
           (Quote.Make Absent (Str (text_of_length 150)))
           (Quote.Make (Str "X") (Str "A"))
           (initial (fun _ => one_half)));
    reflexivity.
Defined.

(** ** A whole selection *)

(** The two revisions of [newQuote] differ on the empty array only. *)
Theorem newQuote_revisions_agree (st : State) :
  data st <> [] -> ScriptJs.newQuote st = Part001.newQuote st.
Proof.
  intros Hne. rewrite ScriptJs_newQuote_unfold, Part001_newQuote_unfold.
  destruct (data st) as [| q0 d]; [congruence | reflexivity].
Qed.

Lemma newQuote_revisions_agree_witness :
  let st := set_data [Quote.Make (Str "X") (Str "A")] (initial (fun _ => one_half)) in
  ScriptJs.newQuote st = Part001.newQuote st.
Proof.
  cbv zeta. apply newQuote_revisions_agree. discriminate.
Defined.

(** A render leaves the loader and the main container alone. *)
Lemma setQuote_loading_flags arg st :
  loader (elements (setQuote arg st).2) = loader (elements st) /\
  mainContainer (elements (setQuote arg st).2) = mainContainer (elements st).
Proof.
  destruct arg as [[a [| | s]] |]; unfold setQuote; unfold_js; simpl; auto.
Qed.

Lemma ScriptJs_newQuote_loading st :
  match (ScriptJs.newQuote st).1 with
  | Ok _ => done_loading (ScriptJs.newQuote st).2
  | Throw _ => is_loading (ScriptJs.newQuote st).2
  end.
Proof.
  rewrite ScriptJs_newQuote_unfold. cbv zeta. unfold done_loading, is_loading.
  match goal with |- context [setQuote ?a ?s] =>
    destruct (setQuote_loading_flags a s) as (Hl & Hm);
    destruct (setQuote a s) as [[[] | e] s'] end;
  simpl in *; [auto |].
  rewrite Hl, Hm. destruct (Nat.eqb _ _); simpl; auto.
Qed.

Lemma Part001_newQuote_loading st :
  match (Part001.newQuote st).1 with
  | Ok _ => done_loading (Part001.newQuote st).2
  | Throw _ => is_loading (Part001.newQuote st).2
  end.
Proof.
  rewrite Part001_newQuote_unfold. unfold done_loading, is_loading.
  destruct (Nat.eqb _ _); [simpl; auto |].
  match goal with |- context [setQuote ?a ?s] =>
    destruct (setQuote_loading_flags a s) as (Hl & Hm);
    destruct (setQuote a s) as [[[] | e] s'] end;
  simpl in *; [auto |].
  rewrite Hl, Hm. simpl; auto.
Qed.

(** [loading] and [completeLoading] bracket the render: a [newQuote] that
    returns leaves the main container in place of the loader, and one that
    throws leaves the loader in place of the main container. *)
Theorem newQuote_loading_state (st : State) :
  match (ScriptJs.newQuote st).1 with
  | Ok _ => done_loading (ScriptJs.newQuote st).2
  | Throw _ => is_loading (ScriptJs.newQuote st).2
  end /\
  match (Part001.newQuote st).1 with
  | Ok _ => done_loading (Part001.newQuote st).2
  | Throw _ => is_loading (Part001.newQuote st).2
  end.
Proof.
  split; [apply ScriptJs_newQuote_loading | apply Part001_newQuote_loading].
Qed.

(** What a [newQuote] that picks a record with a text does, in full. *)
Lemma newQuote_picked st q s :
  picked st = Some q -> Quote.text q = Str s ->
  let st' := (Part001.newQuote st).2 in
  ScriptJs.newQuote st = Part001.newQuote st /\
  (Part001.newQuote st).1 = Ok tt /\
  shows st' q /\ done_loading st' /\
  data st' = data st /\ console st' = console st /\
  opened st' = opened st /\ shared st' = shared st /\
  drawn st' = S (drawn st) /\ rendered st' = rendered st ++ [Some q].
Proof.
  intros Hq Ht. cbv zeta.
  assert (Hne : data st <> []).
  { intros Hd. unfold picked in Hq. rewrite Hd, at_index_nil in Hq. discriminate. }
  split.
  { rewrite ScriptJs_newQuote_unfold, Part001_newQuote_unfold.
    destruct (data st) as [| q0 d]; [congruence | reflexivity]. }
  rewrite Part001_newQuote_unfold.
  destruct (data st) as [| q0 d] eqn:Hd; [congruence |].
  simpl Nat.eqb. cbv iota. rewrite Hq.
  destruct q as [a t]. simpl in Ht. subst t.
  unfold shows, done_loading, setQuote. unfold_js. simpl. auto 15.
Qed.

(** The pick from a well-formed array: a member with a text. *)
Lemma picked_well_formed st :
  data st <> [] -> unit_interval (random st (drawn st)) ->
  Forall (fun q => has_text q = true) (data st) ->
  exists q s, picked st = Some q /\ q ∈ data st /\ Quote.text q = Str s.
Proof.
  intros Hne Hr Hall.
  destruct (picked_member st Hne Hr) as (q & Hq & Hin).
  destruct (picked_has_text st Hne Hr Hall) as (q' & s & Hq' & Ht).
  rewrite Hq in Hq'. injection Hq' as <-. eauto.
Qed.

(** [newQuote] on a well-formed array, for the proofs below. *)
Lemma newQuote_well_formed st :
  data st <> [] -> unit_interval (random st (drawn st)) ->
  Forall (fun q => has_text q = true) (data st) ->
  exists q, q ∈ data st /\
    ScriptJs.newQuote st = Part001.newQuote st /\
    (Part001.newQuote st).1 = Ok tt /\
    shows (Part001.newQuote st).2 q /\
    done_loading (Part001.newQuote st).2 /\
    data (Part001.newQuote st).2 = data st /\
    console (Part001.newQuote st).2 = console st /\
    drawn (Part001.newQuote st).2 = S (drawn st).
Proof.
  intros Hne Hr Hall.
  destruct (picked_well_formed st Hne Hr Hall) as (q & s & Hq & Hin & Ht).
  destruct (newQuote_picked st q s Hq Ht)
    as (Hagree & Hok & Hshow & Hload & Hd & Hc & _ & _ & Hn & _).
  exists q. auto 10.
Qed.

(** On an array that is not empty and whose records all have a text, with a
    random number of the unit interval, [newQuote] returns, shows a member
    of the array, logs nothing, draws one random number and leaves the array
    as it was, in both revisions. *)
Theorem newQuote_shows_member (st : State) :
  data st <> [] -> unit_interval (random st (drawn st)) ->
  Forall (fun q => has_text q = true) (data st) ->
  ScriptJs.newQuote st = Part001.newQuote st /\
  let st' := (Part001.newQuote st).2 in
  (Part001.newQuote st).1 = Ok tt /\
  (exists q, q ∈ data st /\ shows st' q) /\
  done_loading st' /\ data st' = data st /\ console st' = console st /\
  drawn st' = S (drawn st).
Proof.
  intros Hne Hr Hall.
  destruct (newQuote_well_formed st Hne Hr Hall)
    as (q & Hin & Hagree & Hok & Hshow & Hload & Hd & Hc & Hn).
  split; [exact Hagree |]. cbv zeta.
  split; [exact Hok |]. split; [eauto |]. auto.
Qed.

Lemma newQuote_shows_member_witness :
  let A := Quote.Make (Str "X") (Str "A") in
  let st := (Part001.newQuote (set_data [A] (initial (fun _ => one_half)))).2 in
  textContent (quote (elements st)) = "A" /\
  textContent (author (elements st)) = " - X" /\
  done_loading st.
Proof.
  cbv zeta.
  destruct (newQuote_shows_member
              (set_data [Quote.Make (Str "X") (Str "A")] (initial (fun _ => one_half))))
    as (_ & _ & (q & Hin & Hq1 & Hq2) & Hl & _).
  - discriminate.
  - apply unit_intervalb_spec. reflexivity.
  - repeat constructor.
  - apply list_elem_of_singleton in Hin. subst q.
    split; [exact Hq1 |]. split; [exact Hq2 | exact Hl].
Defined.

(** ** A whole acquisition *)

(** When the local list and the remote array together hold at least one
    record, every record has a text and the random number is in the unit
    interval, [getQuotes] returns in both revisions, [data] is the local list
    followed by what the remote gave, the page shows a member of it and the
    loader is gone. *)
Theorem getQuotes_shows_member (localQuotes : list Quote.t) (remote : Remote)
    (st : State) :
  unit_interval (random st (drawn st)) ->
  Forall (fun q => has_text q = true) (localQuotes ++ remote_quotes remote) ->
  localQuotes ++ remote_quotes remote <> [] ->
  (let r := ScriptJs.getQuotes localQuotes remote st in
   r.1 = Ok tt /\ data r.2 = localQuotes ++ remote_quotes remote /\
   (exists q, q ∈ data r.2 /\ shows r.2 q) /\ done_loading r.2) /\
  (let r := Part001.getQuotes localQuotes remote st in
   r.1 = Ok tt /\ data r.2 = localQuotes ++ remote_quotes remote /\
   (exists q, q ∈ data r.2 /\ shows r.2 q) /\ done_loading r.2).
Proof.
  intros Hr Hall Hne. cbv zeta.
  destruct (remote_cases remote) as [(e & He & Hf) | (R & -> & _)].
  - assert (HR : remote_quotes remote = []).
    { destruct remote as [? | ? | [R |]]; try reflexivity. discriminate. }
    rewrite HR, app_nil_r in *.
    rewrite (ScriptJs_getQuotes_failure localQuotes remote e st He).
    rewrite (Part001_getQuotes_failure localQuotes remote e st He).
    split.
    + match goal with |- context [ScriptJs.newQuote ?s] =>
        destruct (newQuote_well_formed s Hne Hr Hall)
          as (q & Hin & -> & Hok & Hsh & Hl & Hd & _) end.
      rewrite Hd. simpl. eauto 10.
    + match goal with |- context [Part001.newQuote ?s] =>
        destruct (newQuote_well_formed s Hne Hr Hall)
          as (q & Hin & _ & Hok & Hsh & Hl & Hd & _) end.
      rewrite Hd. simpl. eauto 10.
  - simpl remote_quotes in *.
    rewrite ScriptJs_getQuotes_success, Part001_getQuotes_success.
    destruct (newQuote_well_formed (set_data (localQuotes ++ R) (loading st).2)
                Hne Hr Hall)
      as (q & Hin & -> & Hok & Hsh & Hl & Hd & _).
    destruct (Part001.newQuote _) as [[[] | e] st1]; simpl in *; [| discriminate].
    rewrite Hd. split; (split; [reflexivity |]); (split; [reflexivity |]); eauto.
Qed.

Lemma getQuotes_shows_member_witness :
  let A := Quote.Make (Str "X") (Str "A") in
  let remote := FetchRejects (TypeError "Failed to fetch") in
  let st := (Part001.getQuotes [A] remote (initial (fun _ => one_half))).2 in
  textContent (quote (elements st)) = "A" /\
  textContent (author (elements st)) = " - X".
Proof.
  cbv zeta.
  destruct (getQuotes_shows_member [Quote.Make (Str "X") (Str "A")]
              (FetchRejects (TypeError "Failed to fetch"))
              (initial (fun _ => one_half)))
    as (_ & _ & Hd & (q & Hin & Hq1 & Hq2) & _).
  - apply unit_intervalb_spec. reflexivity.
  - repeat constructor.
  - discriminate.
  - rewrite Hd in Hin. apply list_elem_of_singleton in Hin. subst q.
    split; [exact Hq1 | exact Hq2].
Defined.

(** A remote call that succeeds with records that have a text is silent:
    nothing is logged, and the two revisions end in the same state. *)
Theorem getQuotes_success_is_silent (localQuotes R : list Quote.t) (st : State) :
  unit_interval (random st (drawn st)) ->
  Forall (fun q => has_text q = true) (localQuotes ++ R) ->
  localQuotes ++ R <> [] ->
  ScriptJs.getQuotes localQuotes (JsonResolves (BodyArray R)) st
    = Part001.getQuotes localQuotes (JsonResolves (BodyArray R)) st /\
  console (Part001.getQuotes localQuotes (JsonResolves (BodyArray R)) st).2
    = console st.
Proof.
  intros Hr Hall Hne.
  rewrite ScriptJs_getQuotes_success, Part001_getQuotes_success.
  destruct (newQuote_well_formed (set_data (localQuotes ++ R) (loading st).2)
              Hne Hr Hall)
    as (q & _ & -> & Hok & _ & _ & _ & Hc & _).
  destruct (Part001.newQuote _) as [[[] | e] st1]; simpl in *; [| discriminate].
  split; [reflexivity | exact Hc].
Qed.

Lemma getQuotes_success_is_silent_witness :
  let A := Quote.Make (Str "X") (Str "A") in
  let B := Quote.Make Absent (Str "B") in
  console (Part001.getQuotes [A] (JsonResolves (BodyArray [B]))
             (initial (fun _ => one_half))).2 = [].
Proof.
  cbv zeta.
  apply (getQuotes_success_is_silent [Quote.Make (Str "X") (Str "A")]
           [Quote.Make Absent (Str "B")] (initial (fun _ => one_half))).
  - apply unit_intervalb_spec. reflexivity.
  - repeat constructor.
  - discriminate.
Defined.

(** [newQuote] of [script.js] on the empty array, as an equation. *)
Lemma ScriptJs_newQuote_empty_eq st :
  data st = [] ->
  exists e,
    ScriptJs.newQuote st =
      (Throw e,
       set_rendered (rendered st ++ [None])
         (set_drawn (S (drawn st))
            (logError "No quotes to display" (loading st).2).2)).
Proof.
  intros Hd. rewrite ScriptJs_newQuote_unfold. cbv zeta.
  unfold picked. rewrite Hd, at_index_nil. simpl. eexists. reflexivity.
Qed.

(** With no local quote and nothing from the remote there is nothing to
    show.  In [script.js] the promise of [getQuotes] rejects, the handler at
    the end of the script logs "Unhandled error in getQuotes:" as the last
    entry of the console, and the loader stays in place of the main
    container.  The later revision returns, logs "No quotes to display" as
    the last entry, makes no render call and shows the main container, with
    the quote and author elements as they were. *)
Theorem main_nothing_to_show (remote : Remote) (st : State) :
  remote_quotes remote = [] ->
  (let r := ScriptJs.main [] remote st in
   (exists e, (ScriptJs.getQuotes [] remote st).1 = Throw e) /\
   r.1 = Ok tt /\ is_loading r.2 /\ data r.2 = [] /\
   quote (elements r.2) = quote (elements st) /\
   author (elements r.2) = author (elements st) /\
   exists e before,
     console r.2 = before ++ [[LogStr "Unhandled error in getQuotes:"; LogErr e]]) /\
  (let r := Part001.main [] remote st in
   (Part001.getQuotes [] remote st).1 = Ok tt /\
   r.1 = Ok tt /\ done_loading r.2 /\ data r.2 = [] /\
   quote (elements r.2) = quote (elements st) /\
   author (elements r.2) = author (elements st) /\
   rendered r.2 = rendered st /\
   exists before, console r.2 = before ++ [[LogStr "No quotes to display"]]).
Proof.
  intros HR. cbv zeta. unfold ScriptJs.main, Part001.main, try_catch.
  destruct (remote_cases remote) as [(e & He & _) | (R & -> & _)].
  - rewrite (ScriptJs_getQuotes_failure [] remote e st He).
    rewrite (Part001_getQuotes_failure [] remote e st He).
    split.
    + match goal with |- context [ScriptJs.newQuote ?s] =>
        destruct (ScriptJs_newQuote_empty_eq s eq_refl) as [e' ->] end.
      simpl. unfold is_loading. simpl.
      split; [eauto |]. repeat match goal with |- _ /\ _ => split end;
        try reflexivity.
      do 2 eexists. reflexivity.
    + rewrite Part001_newQuote_unfold. simpl. unfold done_loading. simpl.
      repeat match goal with |- _ /\ _ => split end; try reflexivity.
      eexists. reflexivity.
  - simpl in HR. subst R.
    rewrite ScriptJs_getQuotes_success, Part001_getQuotes_success.
    split.
    + destruct (ScriptJs_newQuote_empty_eq (set_data ([] ++ []) (loading st).2) eq_refl)
        as [e1 ->].
      match goal with |- context [ScriptJs.newQuote ?s] =>
        destruct (ScriptJs_newQuote_empty_eq s eq_refl) as [e2 ->] end.
      simpl. unfold is_loading. simpl.
      split; [eauto |]. repeat match goal with |- _ /\ _ => split end;
        try reflexivity.
      do 2 eexists. reflexivity.
    + rewrite Part001_newQuote_unfold. simpl. unfold done_loading. simpl.
      repeat match goal with |- _ /\ _ => split end; try reflexivity.
      eexists. reflexivity.
Qed.

Lemma main_nothing_to_show_witness :
  let remote := JsonResolves (BodyArray []) in
  let st := initial (fun _ => one_half) in
  is_loading (ScriptJs.main [] remote st).2 /\
  done_loading (Part001.main [] remote st).2.
Proof.
  cbv zeta.
  destruct (main_nothing_to_show (JsonResolves (BodyArray []))
              (initial (fun _ => one_half)) eq_refl)
    as ((_ & _ & H1 & _) & (_ & _ & H2 & _)).
  split; [exact H1 | exact H2].
Defined.

(** ** Every quote can be picked *)

Lemma random_for_bounds i n :
  0 <= i < n -> n < 2 ^ 32 ->
  let m := mant (random_for i n) in
  i * 2 ^ 53 <= m * n < i * 2 ^ 53 + n /\ 0 <= m < 2 ^ 53.
Proof.
  intros Hi Hn. cbv zeta. unfold random_for, mant.
  set (K := 2 ^ 53) in *. assert (HK : K = 9007199254740992) by reflexivity.
  assert (H32 : 2 ^ 32 = 4294967296) by reflexivity.
  pose proof (Z.div_mod (i * K + n - 1) n ltac:(lia)) as Hdm.
  pose proof (Z.mod_pos_bound (i * K + n - 1) n ltac:(lia)) as Hmod.
  set (m := (i * K + n - 1) / n) in *.
  assert (H1 : i * K <= m * n < i * K + n) by nia.
  split; [exact H1 |]. split; [nia |].
  assert (m * n < K * n) by nia. nia.
Qed.

Lemma random_for_unit_interval i n :
  0 <= i < n -> n < 2 ^ 32 -> unit_interval (random_for i n).
Proof.
  intros Hi Hn. destruct (random_for_bounds i n Hi Hn) as [_ Hm].
  unfold unit_interval. change (expo (random_for i n)) with (-53).
  change (- -53) with 53. lia.
Qed.

(** The product of [random_for i n] and [n] lies in [i, i + 1) before the
    rounding and after it. *)
Lemma randomIndex_random_for i (n : nat) :
  0 <= i < Z.of_nat n -> Z.of_nat n < 2 ^ 32 ->
  randomIndex (random_for i (Z.of_nat n)) n = i.
Proof.
  intros Hi Hn.
  destruct (random_for_bounds i (Z.of_nat n) Hi Hn) as [HM Hm].
  unfold randomIndex, mul_length, Math_floor.
  change (expo (random_for i (Z.of_nat n))) with (-53).
  set (m := mant (random_for i (Z.of_nat n))) in *.
  set (N := Z.of_nat n) in *.
  set (M := m * N) in *.
  assert (HK : 2 ^ 53 = 9007199254740992) by reflexivity.
  assert (H32 : 2 ^ 32 = 4294967296) by reflexivity.
  unfold round53. set (s := Z.log2 M + 1 - 53).
  destruct (Z.leb_spec s 0) as [Hs | Hs]; simpl mant; simpl expo.
  - change (Z.shiftl M (-53)) with (Z.shiftr M 53).
    rewrite Z.shiftr_div_pow2 by lia.
    symmetry. apply Z.div_unique with (r := M - i * 2 ^ 53); lia.
  - assert (HMpos : 0 < M).
    { destruct (Z.eq_dec M 0) as [H0 |]; [| lia].
      unfold s in Hs. rewrite H0 in Hs. simpl in Hs. lia. }
    assert (Hs32 : s <= 32).
    { assert (Z.log2 M < 85); [| unfold s; lia].
      apply Z.log2_lt_pow2; [lia |].
      change (2 ^ 85) with (2 ^ 53 * 2 ^ 32). nia. }
    rewrite Z.shiftr_div_pow2, Z.land_ones by lia.
    replace (-53 + s) with (- (53 - s)) by lia.
    set (t := 53 - s).
    assert (Ht : 0 <= t) by (unfold t; lia).
    assert (HS : 0 < 2 ^ s) by (apply Z.pow_pos_nonneg; lia).
    assert (HT : 0 < 2 ^ t) by (apply Z.pow_pos_nonneg; lia).
    assert (HST : 2 ^ 53 = 2 ^ t * 2 ^ s).
    { rewrite <- Z.pow_add_r by lia. f_equal. unfold t. lia. }
    assert (HSle : 2 ^ s <= 2 ^ 32) by (apply Z.pow_le_mono_r; lia).
    pose proof (Z.div_mod M (2 ^ s) ltac:(lia)) as Hdm.
    pose proof (Z.mod_pos_bound M (2 ^ s) HS) as Hmod.
    set (q := M / 2 ^ s) in *. set (rest := M mod 2 ^ s) in *.
    set (S := 2 ^ s) in *. set (T := 2 ^ t) in *.
    assert (Hq1 : i * T <= q) by nia.
    assert (Hq2 : q + 1 < (i + 1) * T).
    { assert (q * S < i * T * S + N) by nia.
      assert (N + 2 * S <= T * S) by lia.
      nia. }
    match goal with |- Z.shiftl ?x _ = _ => set (q' := x) end.
    assert (Hq' : q <= q' <= q + 1).
    { unfold q'. destruct (_ || _); lia. }
    change (Z.shiftl q' (- t)) with (Z.shiftr q' t).
    rewrite Z.shiftr_div_pow2 by lia. fold T.
    symmetry. apply Z.div_unique with (r := q' - i * T); nia.
Qed.

(** No quote is out of reach of the random pick: for the quote at any index
    [i] of an array of fewer than [2 ^ 32] elements there is a number of the
    unit interval, [random_for i n], with which [newQuote] hands that quote
    to [setQuote]. *)
Theorem newQuote_can_pick_any (st : State) (i : nat) (q : Quote.t) :
  data st !! i = Some q ->
  Z.of_nat (length (data st)) < 2 ^ 32 ->
  let r := random_for (Z.of_nat i) (Z.of_nat (length (data st))) in
  unit_interval r /\
  randomIndex r (length (data st)) = Z.of_nat i /\
  (random st (drawn st) = r ->
   rendered (ScriptJs.newQuote st).2 = rendered st ++ [Some q] /\
   rendered (Part001.newQuote st).2 = rendered st ++ [Some q]).
Proof.
  intros Hq Hlen. cbv zeta.
  pose proof (lookup_lt_Some _ _ _ Hq) as Hi.
  assert (Hi' : 0 <= Z.of_nat i < Z.of_nat (length (data st))) by lia.
  split; [apply random_for_unit_interval; assumption |].
  split; [apply randomIndex_random_for; assumption |].
  intros Hr.
  assert (Hp : picked st = Some q).
  { unfold picked. rewrite Hr, randomIndex_random_for by assumption.
    unfold at_index. destruct (Z.ltb_spec (Z.of_nat i) 0); [lia |].
    rewrite Nat2Z.id. exact Hq. }
  assert (Hne : data st <> []).
  { intros Hd. rewrite Hd in Hq. discriminate. }
  rewrite ScriptJs_newQuote_rendered, Part001_newQuote_rendered, Hp by exact Hne.
  split; reflexivity.
Qed.

Lemma newQuote_can_pick_any_witness :
  let A := Quote.Make (Str "X") (Str "A") in
  let B := Quote.Make Absent (Str "B") in
  let C := Quote.Make Null (Str "C") in
  let st := set_data [A; B; C] (initial (fun _ => random_for 2 3)) in
  randomIndex (random_for 2 3) 3 = 2 /\
  rendered (ScriptJs.newQuote st).2 = [Some C].
Proof.
  cbv zeta.
  destruct (newQuote_can_pick_any
              (set_data [Quote.Make (Str "X") (Str "A"); Quote.Make Absent (Str "B");
                         Quote.Make Null (Str "C")]
                        (initial (fun _ => random_for 2 3)))
              2%nat (Quote.Make Null (Str "C")) eq_refl)
    as (_ & Hi & Hr).
  - vm_compute. reflexivity.
  - split; [exact Hi |]. exact (proj1 (Hr eq_refl)).
Defined.

(** ** Sharing what is shown *)

(** [shareQuote] reads the page and never writes to it: the array, the
    elements, the random numbers and the renders are as before, and it
    returns, in both revisions. *)
Theorem shareQuote_leaves_page (encodeURIComponent : string -> string)
    (navigator_share : option (ShareData -> option JsError))
    (location_href : string) (st : State) :
  (let r := ScriptJs.shareQuote encodeURIComponent st in
   r.1 = Ok tt /\ data r.2 = data st /\ elements r.2 = elements st /\
   drawn r.2 = drawn st /\ rendered r.2 = rendered st) /\
  (let r := Part001.shareQuote encodeURIComponent navigator_share location_href st in
   r.1 = Ok tt /\ data r.2 = data st /\ elements r.2 = elements st /\
   drawn r.2 = drawn st /\ rendered r.2 = rendered st).
Proof.
  cbv zeta. unfold ScriptJs.shareQuote, Part001.shareQuote. unfold_js. simpl.
  destruct (falsy (textContent (quote (elements st))) ||
            falsy (textContent (author (elements st)))); simpl.
  - auto 10.
  - split; [auto 10 |].
    destruct navigator_share as [share |]; simpl; [| auto 10].
    destruct (share _); simpl; auto 10.
Qed.

(** In [script.js], sharing after a render of a quote with the text [s]
    opens one window whose text is the quoted [s], " - ", and the author
    element, which itself starts with " - ": the dash comes twice.  The
    author element is never empty after a render, so the log depends on the
    text alone. *)
Theorem ScriptJs_share_after_render (encodeURIComponent : string -> string)
    (q : Quote.t) (s : string) (st : State) :
  Quote.text q = Str s ->
  let st1 := (setQuote (Some q) st).2 in
  let st2 := (ScriptJs.shareQuote encodeURIComponent st1).2 in
  let authorName := ToString (withDefault (Quote.author q) "Unknown") in
  opened st2 =
    opened st ++
    [("https://twitter.com/intent/tweet?text="
      +:+ encodeURIComponent
            (dquote +:+ s +:+ dquote +:+ " - " +:+ " - " +:+ authorName),
      "_blank")] /\
  console st2 =
    console st ++ (if falsy s then [[LogStr "No quote or author to share"]] else []).
Proof.
  destruct q as [a t]. simpl. intros ->. cbv zeta.
  unfold ScriptJs.shareQuote, setQuote. unfold_js. simpl.
  destruct s; simpl; rewrite ?app_nil_r; auto.
Qed.

Lemma ScriptJs_share_after_render_witness :
  let q := Quote.Make (Str "X") (Str "A") in
  let st := initial (fun _ => one_half) in
  opened (ScriptJs.shareQuote (fun s => s) (setQuote (Some q) st).2).2 =
    [("https://twitter.com/intent/tweet?text="
      +:+ dquote +:+ "A" +:+ dquote +:+ " -  - X", "_blank")].
Proof.
  cbv zeta.
  exact (proj1 (ScriptJs_share_after_render (fun s => s)
                  (Quote.Make (Str "X") (Str "A")) "A"
                  (initial (fun _ => one_half)) eq_refl)).
Defined.

(** In the later revision, sharing after a render of a quote with a text
    that is not empty hands the text, a space and the author element to
    exactly one surface: [navigator.share] where the browser has it (a
    rejection is logged), a new window otherwise.  After a render of the
    empty text nothing is shared. *)
Theorem Part001_share_after_render (encodeURIComponent : string -> string)
    (navigator_share : option (ShareData -> option JsError))
    (location_href : string) (q : Quote.t) (s : string) (st : State) :
  Quote.text q = Str s ->
  let st1 := (setQuote (Some q) st).2 in
  let st2 :=
    (Part001.shareQuote encodeURIComponent navigator_share location_href st1).2 in
  let shareText :=
    s +:+ " " +:+ " - " +:+ ToString (withDefault (Quote.author q) "Unknown") in
  let shareData := mkShareData "InkSpire Quote" shareText location_href in
  (s = EmptyString ->
   shared st2 = shared st /\ opened st2 = opened st /\
   console st2 = console st ++ [[LogStr "No quote or author to share"]]) /\
  (s <> EmptyString ->
   match navigator_share with
   | Some share =>
       shared st2 = shared st ++ [shareData] /\ opened st2 = opened st /\
       console st2 =
         console st ++
         match share shareData with
         | Some error =>
             [[LogStr ("Error sharing via Web Share API: " +:+ errorToString error)]]
         | None => []
         end
   | None =>
       shared st2 = shared st /\
       opened st2 =
         opened st ++
         [("https://twitter.com/intent/tweet?text=" +:+ encodeURIComponent shareText,
           "_blank")] /\
       console st2 = console st
   end).
Proof.
  destruct q as [a t]. simpl. intros ->. cbv zeta.
  unfold Part001.shareQuote, setQuote. unfold_js. simpl.
  destruct s as [| c s]; simpl.
  - split; [auto | congruence].
  - split; [discriminate |]. intros _.
    destruct navigator_share as [share |]; simpl; [| auto].
    destruct (share _); simpl; rewrite ?app_nil_r; auto.
Qed.

Lemma Part001_share_after_render_witness :
  let q := Quote.Make (Str "X") (Str "A") in
  let st := initial (fun _ => one_half) in
  shared (Part001.shareQuote (fun s => s) (Some (fun _ => None))
            "https://example.org/" (setQuote (Some q) st).2).2 =
    [mkShareData "InkSpire Quote" "A  - X" "https://example.org/"] /\
  opened (Part001.shareQuote (fun s => s) None
            "https://example.org/" (setQuote (Some q) st).2).2 =
    [("https://twitter.com/intent/tweet?text=A  - X", "_blank")].
Proof.
  cbv zeta. split.
  - exact (proj1 (proj2 (Part001_share_after_render (fun s => s)
                           (Some (fun _ => None)) "https://example.org/"
                           (Quote.Make (Str "X") (Str "A")) "A"
                           (initial (fun _ => one_half)) eq_refl)
                    ltac:(discriminate))).
  - exact (proj1 (proj2 (proj2 (Part001_share_after_render (fun s => s)
                           None "https://example.org/"
                           (Quote.Make (Str "X") (Str "A")) "A"
                           (initial (fun _ => one_half)) eq_refl)
                    ltac:(discriminate)))).
Defined.

(** ** The loader after an acquisition *)

(** Every path of [getQuotes] ends in a [newQuote], so the loader is gone
    exactly when [getQuotes] returns: a [getQuotes] that throws leaves the
    loader in place of the main container, whatever the local list, the
    remote outcome and the random numbers. *)
Theorem getQuotes_loading_state (localQuotes : list Quote.t) (remote : Remote)
    (st : State) :
  match (ScriptJs.getQuotes localQuotes remote st).1 with
  | Ok _ => done_loading (ScriptJs.getQuotes localQuotes remote st).2
  | Throw _ => is_loading (ScriptJs.getQuotes localQuotes remote st).2
  end /\
  match (Part001.getQuotes localQuotes remote st).1 with
  | Ok _ => done_loading (Part001.getQuotes localQuotes remote st).2
  | Throw _ => is_loading (Part001.getQuotes localQuotes remote st).2
  end.
Proof.
  destruct (remote_cases remote) as [(e & He & _) | (R & -> & _)].
  - rewrite (ScriptJs_getQuotes_failure localQuotes remote e st He).
    rewrite (Part001_getQuotes_failure localQuotes remote e st He).
    split; [apply ScriptJs_newQuote_loading | apply Part001_newQuote_loading].
  - rewrite ScriptJs_getQuotes_success, Part001_getQuotes_success. split.
    + pose proof (ScriptJs_newQuote_loading (set_data (localQuotes ++ R) (loading st).2))
        as H1.
      destruct (ScriptJs.newQuote (set_data (localQuotes ++ R) (loading st).2))
        as [[[] | e] st1]; [exact H1 | apply ScriptJs_newQuote_loading].
    + pose proof (Part001_newQuote_loading (set_data (localQuotes ++ R) (loading st).2))
        as H1.
      destruct (Part001.newQuote (set_data (localQuotes ++ R) (loading st).2))
        as [[[] | e] st1]; [exact H1 | apply Part001_newQuote_loading].
Qed.

(** ** A render that fails after a fetch that succeeded *)

(** When the fetch succeeds and the record picked from the merged array has
    a text that is missing or [null], the [TypeError] of the render is what
    the [catch] clause logs under "Error fetching quotes", and [data] goes
    back to the local list, in both revisions. *)
Theorem getQuotes_render_failure_logged (localQuotes R : list Quote.t) (st : State)
    (q : Quote.t) :
  picked (set_data (localQuotes ++ R) st) = Some q -> has_text q = false ->
  exists msg,
    (let st' := (ScriptJs.getQuotes localQuotes (JsonResolves (BodyArray R)) st).2 in
     data st' = localQuotes /\
     exists rest,
       console st' =
         console st ++ [LogStr "Error fetching quotes"; LogErr (TypeError msg)] :: rest) /\
    (let st' := (Part001.getQuotes localQuotes (JsonResolves (BodyArray R)) st).2 in
     data st' = localQuotes /\
     exists rest,
       console st' =
         console st ++
         [LogStr ("Error fetching quotes: " +:+ errorToString (TypeError msg))] :: rest).
Proof. exact (getQuotes_render_failure localQuotes R st q). Qed.

Lemma getQuotes_render_failure_logged_witness :
  let A := Quote.Make (Str "X") (Str "A") in
  let bad := Quote.Make (Str "Y") Null in
  let st := initial (fun _ => one_half) in
  data (ScriptJs.getQuotes [A] (JsonResolves (BodyArray [bad])) st).2 = [A] /\
  data (Part001.getQuotes [A] (JsonResolves (BodyArray [bad])) st).2 = [A].
Proof.
  cbv zeta.
  destruct (getQuotes_render_failure_logged
              [Quote.Make (Str "X") (Str "A")] [Quote.Make (Str "Y") Null]
              (initial (fun _ => one_half)) (Quote.Make (Str "Y") Null))
    as (msg & (H1 & _) & (H2 & _)).
  - vm_compute. reflexivity.
  - reflexivity.
  - split; [exact H1 | exact H2].
Defined.

(** ** Any number of clicks on the new-quote button *)

(** [newQuote] leaves the source of random numbers as it is. *)
Lemma Part001_newQuote_random st : random (Part001.newQuote st).2 = random st.
Proof.
  rewrite Part001_newQuote_unfold.
  destruct (Nat.eqb _ _); [reflexivity |].
  match goal with |- context [setQuote ?a ?s] =>
    destruct (setQuote_frame a s) as (_ & _ & _ & _ & Hr & _);
    destruct (setQuote a s) as [[[] | e] s'] end;
  simpl in *; rewrite Hr; reflexivity.
Qed.

(** Selection is an invariant of the page: after any number of clicks on the
    new-quote button, with an array that is not empty, records that all have
    a text and random numbers of the unit interval, the array and the console
    are as before, one random number was drawn per click, and after at least
    one click the page shows a member of the array with the loader gone; the
    two revisions go through the same states. *)
Theorem clicks_keep_showing_members (n : nat) (st : State) :
  data st <> [] ->
  Forall (fun q => has_text q = true) (data st) ->
  (forall i, unit_interval (random st i)) ->
  clicks ScriptJs.newQuote n st = clicks Part001.newQuote n st /\
  (clicks Part001.newQuote n st).1 = Ok tt /\
  data (clicks Part001.newQuote n st).2 = data st /\
  console (clicks Part001.newQuote n st).2 = console st /\
  drawn (clicks Part001.newQuote n st).2 = (drawn st + n)%nat /\
  ((0 < n)%nat ->
   (exists q, q ∈ data st /\ shows (clicks Part001.newQuote n st).2 q) /\
   done_loading (clicks Part001.newQuote n st).2).
Proof.
  revert st. induction n as [| n IH]; intros st Hne Hall Hrnd.
  - simpl. unfold ret. simpl. rewrite Nat.add_0_r.
    repeat (split; [reflexivity |]). lia.
  - destruct (newQuote_well_formed st Hne (Hrnd (drawn st)) Hall)
      as (q & Hin & Hagree & Hok & Hshow & Hload & Hd & Hc & Hn).
    pose proof (Part001_newQuote_random st) as Hrand.
    assert (Hstep : forall h, h st = Part001.newQuote st ->
              clicks h (S n) st = clicks h n (Part001.newQuote st).2).
    { intros h Hh. simpl. unfold click, try_catch, bind, ret. rewrite Hh.
      destruct (Part001.newQuote st) as [[[] | e] st1]; simpl in *;
        [reflexivity | discriminate]. }
    rewrite (Hstep ScriptJs.newQuote Hagree), (Hstep Part001.newQuote eq_refl).
    set (st1 := (Part001.newQuote st).2) in *.
    assert (Hne1 : data st1 <> []) by (rewrite Hd; exact Hne).
    assert (Hall1 : Forall (fun q => has_text q = true) (data st1))
      by (rewrite Hd; exact Hall).
    assert (Hrnd1 : forall i, unit_interval (random st1 i))
      by (rewrite Hrand; exact Hrnd).
    destruct (IH st1 Hne1 Hall1 Hrnd1) as (IH1 & IH2 & IH3 & IH4 & IH5 & IH6).
    split; [exact IH1 |]. split; [exact IH2 |].
    split; [rewrite IH3; exact Hd |]. split; [rewrite IH4; exact Hc |].
    split; [rewrite IH5, Hn; lia |].
    intros _. destruct n as [| n'].
    + simpl. unfold ret. simpl. eauto.
    + destruct (IH6 ltac:(lia)) as ((q' & Hin' & Hsh') & Hl').
      rewrite Hd in Hin'. eauto.
Qed.

Lemma clicks_keep_showing_members_witness :
  let A := Quote.Make (Str "X") (Str "A") in
  let st := set_data [A] (initial (fun _ => one_half)) in
  data (clicks Part001.newQuote 3 st).2 = [A] /\
  drawn (clicks Part001.newQuote 3 st).2 = 3%nat /\
  done_loading (clicks Part001.newQuote 3 st).2.
Proof.
  cbv zeta.
  destruct (clicks_keep_showing_members 3
              (set_data [Quote.Make (Str "X") (Str "A")] (initial (fun _ => one_half))))
    as (_ & _ & Hd & _ & Hn & Hs).
  - discriminate.
  - repeat constructor.
  - intros i. apply unit_intervalb_spec. reflexivity.
  - split; [exact Hd |]. split; [exact Hn |]. apply Hs. lia.
Defined.
